(** * moonmusic: the per-frame motion rule of the floating bodies

    A shallow embedding of [components/Scene.tsx]: the [useFrame] callback of
    [FloatingObject], the shared position registry [allObjects], and the
    initial layout computed in [Scene].

    JavaScript numbers are written once against a small numeric interface
    ([Number]) and instantiated twice: at the real numbers, where the
    algebraic laws of the motion rule are proved, and at IEEE-754 binary64
    ([PrimFloat]), where the very same definitions are run. The vector
    operations are those of three.js's [Vector3], method by method. Line
    numbers are those of the component's source file. *)

From Stdlib Require Import ZArith Reals Lra Lia List Bool.
From Stdlib Require PrimFloat Uint63.
From stdpp Require Import base option list.

Set Default Proof Using "Type".

(* ================================================================== *)
(** ** JavaScript numbers *)

Declare Scope num_scope.
Delimit Scope num_scope with num.

Class Number (T : Type) : Type := {
  ofZ    : Z -> T;              (* an integer literal *)
  nadd   : T -> T -> T;         (* a + b *)
  nsub   : T -> T -> T;         (* a - b *)
  nmul   : T -> T -> T;         (* a * b *)
  ndiv   : T -> T -> T;         (* a / b *)
  nsqrt  : T -> T;              (* Math.sqrt(a) *)
  nltb   : T -> T -> bool;      (* a < b *)
  truthy : T -> bool            (* ToBoolean(a): false at 0, -0 and NaN *)
}.

Infix "+" := nadd : num_scope.
Infix "-" := nsub : num_scope.
Infix "*" := nmul : num_scope.
Infix "/" := ndiv : num_scope.
Notation "a <? b" := (nltb a b) : num_scope.
Notation "a >? b" := (nltb b a) : num_scope.

(** [a || b] on numbers. *)
Definition js_or {T} `{Number T} (a b : T) : T :=
  if truthy a then a else b.

(** A decimal literal [m / 10^k], e.g. [0.02] is [dec 2 100]. Both
    instances below give the literal's value: at binary64 the quotient of two
    exactly representable integers is the correctly rounded literal. *)
Definition dec {T} `{Number T} (m d : Z) : T := (ofZ m / ofZ d)%num.

(** Exact reals: the idealised reading of the arithmetic. *)
Definition Rltb (a b : R) : bool := if Rlt_dec a b then true else false.
Definition Rtruthy (a : R) : bool := if Req_dec_T a 0 then false else true.

#[export] Instance Number_R : Number R := {|
  ofZ := IZR; nadd := Rplus; nsub := Rminus; nmul := Rmult; ndiv := Rdiv;
  nsqrt := sqrt; nltb := Rltb; truthy := Rtruthy |}.

(** IEEE-754 binary64: what the JavaScript engine computes. *)
Definition float_ofZ (z : Z) : PrimFloat.float :=
  match z with
  | Z0 => PrimFloat.zero
  | Zpos _ => PrimFloat.of_uint63 (Uint63.of_Z z)
  | Zneg p => PrimFloat.opp (PrimFloat.of_uint63 (Uint63.of_Z (Zpos p)))
  end.
Definition float_truthy (a : PrimFloat.float) : bool :=
  PrimFloat.eqb a a && negb (PrimFloat.eqb a PrimFloat.zero).

#[export] Instance Number_float : Number PrimFloat.float := {|
  ofZ := float_ofZ; nadd := PrimFloat.add; nsub := PrimFloat.sub;
  nmul := PrimFloat.mul; ndiv := PrimFloat.div; nsqrt := PrimFloat.sqrt;
  nltb := PrimFloat.ltb; truthy := float_truthy |}.

(* ================================================================== *)
(** ** three.js [Vector3] *)

Module Vector3.
Record t (T : Type) : Type := new { x : T; y : T; z : T }.
Arguments new {T} _ _ _.
Arguments x {T} _.
Arguments y {T} _.
Arguments z {T} _.

Section Ops.
Context {T : Type} `{Number T}.
Local Open Scope num_scope.
Local Abbreviation Vector3 := t.
Local Abbreviation mkVector3 := new.

(** [this.add(v)] *)
Definition add (this v : Vector3 T) : Vector3 T :=
  mkVector3 (x this + x v) (y this + y v) (z this + z v).

(** [this.sub(v)] *)
Definition sub (this v : Vector3 T) : Vector3 T :=
  mkVector3 (x this - x v) (y this - y v) (z this - z v).

(** [this.multiplyScalar(s)] *)
Definition multiplyScalar (this : Vector3 T) (s : T) : Vector3 T :=
  mkVector3 (x this * s) (y this * s) (z this * s).

(** [this.divideScalar(s)] is [this.multiplyScalar(1 / s)]. *)
Definition divideScalar (this : Vector3 T) (s : T) : Vector3 T :=
  multiplyScalar this (ofZ 1 / s).

(** [this.length()] *)
Definition length (this : Vector3 T) : T :=
  nsqrt (x this * x this + y this * y this + z this * z this).

(** [this.normalize()] is [this.divideScalar(this.length() || 1)]. *)
Definition normalize (this : Vector3 T) : Vector3 T :=
  divideScalar this (js_or (length this) (ofZ 1)).

(** [this.distanceToSquared(v)] *)
Definition distanceToSquared (this v : Vector3 T) : T :=
  let dx := x this - x v in
  let dy := y this - y v in
  let dz := z this - z v in
  dx * dx + dy * dy + dz * dz.

(** [this.distanceTo(v)] *)
Definition distanceTo (this v : Vector3 T) : T :=
  nsqrt (distanceToSquared this v).

(** [this.lerp(v, alpha)] *)
Definition lerp (this v : Vector3 T) (alpha : T) : Vector3 T :=
  mkVector3 (x this + (x v - x this) * alpha)
            (y this + (y v - y this) * alpha)
            (z this + (z v - z this) * alpha).
End Ops.
End Vector3.

Abbreviation Vector3 := Vector3.t.

(* ================================================================== *)
(** ** [FloatingObject] *)

Section Constants.
Context {T : Type} `{Number T}.

Definition MOON_RADIUS : T := ofZ 3.
Definition GRAVITY_STRENGTH : T := dec 2 100.          (* 0.02 *)
Definition REPULSION_STRENGTH : T := dec 3 10.         (* 0.3 *)
Definition DAMPING : T := dec 95 100.                  (* 0.95 *)
Definition MOUSE_INFLUENCE_RADIUS : T := ofZ 4.
Definition OBJECT_SPACING : T := dec 6 10.             (* 0.6 *)
End Constants.

Inductive ObjectType : Type := box | sphere | disk.

(** One mounted [FloatingObject]: its props and its refs and state.
    [mesh] is [meshRef.current.position], [None] while the ref is still
    [null]; [velocity] is [velocityRef.current]. *)
Record FloatingObject (T : Type) : Type := mkFloatingObject {
  index     : nat;
  type      : ObjectType;
  mesh      : option (Vector3 T);
  velocity  : Vector3 T;
  isHovered : bool
}.
Arguments mkFloatingObject {T} _ _ _ _ _.
Arguments index {T} _.
Arguments type {T} _.
Arguments mesh {T} _.
Arguments velocity {T} _.
Arguments isHovered {T} _.

(** What [useThree] hands to the callback: the pointer in normalised device
    coordinates and the viewport size. *)
Record Three (T : Type) : Type := mkThree {
  mouse_x : T; mouse_y : T; viewport_width : T; viewport_height : T
}.
Arguments mkThree {T} _ _ _ _.
Arguments mouse_x {T} _.
Arguments mouse_y {T} _.
Arguments viewport_width {T} _.
Arguments viewport_height {T} _.

Section FloatingObject.
Context {T : Type} `{Number T}.
Local Open Scope num_scope.

Definition calculateDistance (pos1 pos2 : Vector3 T) : T :=
  Vector3.distanceTo pos1 pos2.

Definition moonCenter : Vector3 T := Vector3.new (ofZ 0) (ofZ 0) (ofZ 0).

Definition mousePosition (three : Three T) : Vector3 T :=
  Vector3.new ((mouse_x three * viewport_width three) / ofZ 2)
              ((mouse_y three * viewport_height three) / ofZ 2)
              (ofZ 0).

(** The spring target of the rendered scale; the only reader of
    [isHovered] besides the material colours. *)
Definition scale (o : FloatingObject T) : T :=
  if isHovered o then dec 11 10 else ofZ 1.

(** line 68 *)
Definition damp (velocity : Vector3 T) : Vector3 T :=
  Vector3.multiplyScalar velocity DAMPING.

(** lines 70-73 *)
Definition gravity (distanceToMoon : T) (objectPosition velocity : Vector3 T)
  : Vector3 T :=
  if distanceToMoon >? MOON_RADIUS then
    let gravityDirection :=
      Vector3.normalize (Vector3.sub moonCenter objectPosition) in
    Vector3.add velocity
      (Vector3.multiplyScalar gravityDirection GRAVITY_STRENGTH)
  else velocity.

(** lines 75-79 *)
Definition repulsion (distanceToMouse : T)
    (objectPosition mousePosition velocity : Vector3 T) : Vector3 T :=
  if distanceToMouse <? MOUSE_INFLUENCE_RADIUS then
    let repulsionDirection :=
      Vector3.normalize (Vector3.sub objectPosition mousePosition) in
    let repulsionStrength :=
      REPULSION_STRENGTH * (ofZ 1 - distanceToMouse / MOUSE_INFLUENCE_RADIUS) in
    Vector3.add velocity
      (Vector3.multiplyScalar repulsionDirection repulsionStrength)
  else velocity.

(** lines 82-88: the body of the [forEach] callback *)
Definition avoid (index : nat) (objectPosition : Vector3 T)
    (otherPos : Vector3 T) (i : nat) (velocity : Vector3 T) : Vector3 T :=
  if decide (i <> index) then
    let distanceToObject := calculateDistance objectPosition otherPos in
    if distanceToObject <? OBJECT_SPACING then
      let avoidanceDirection :=
        Vector3.normalize (Vector3.sub objectPosition otherPos) in
      Vector3.add velocity
        (Vector3.multiplyScalar avoidanceDirection (dec 2 100))
    else velocity
  else velocity.

(** lines 81-89: [allObjects.forEach], from array position [i] on *)
Fixpoint avoidance (index : nat) (objectPosition : Vector3 T) (i : nat)
    (allObjects : list (Vector3 T)) (velocity : Vector3 T) : Vector3 T :=
  match allObjects with
  | [] => velocity
  | otherPos :: rest =>
      avoidance index objectPosition (S i) rest
        (avoid index objectPosition otherPos i velocity)
  end.

(** lines 93-98. [distanceToMoon] is the value computed on line 65;
    [position] is the mesh position after line 91. *)
Definition surface (distanceToMoon : T) (position velocity : Vector3 T)
  : Vector3 T * Vector3 T :=
  if distanceToMoon <? MOON_RADIUS + dec 5 10 then
    let normal := Vector3.normalize position in
    let targetPos := Vector3.multiplyScalar normal (MOON_RADIUS + dec 5 10) in
    (Vector3.lerp position targetPos (dec 2 10),
     Vector3.multiplyScalar velocity (dec 8 10))
  else (position, velocity).

(** The velocity after lines 68-89. *)
Definition forces (index : nat) (three : Three T)
    (objectPosition velocity : Vector3 T) (allObjects : list (Vector3 T))
  : Vector3 T :=
  let distanceToMoon := calculateDistance objectPosition moonCenter in
  let distanceToMouse :=
    calculateDistance objectPosition (mousePosition three) in
  let velocity := damp velocity in
  let velocity := gravity distanceToMoon objectPosition velocity in
  let velocity :=
    repulsion distanceToMouse objectPosition (mousePosition three) velocity in
  avoidance index objectPosition 0 allObjects velocity.

(** The velocity after lines 68-79, as the [forEach] of line 81 finds it. *)
Definition beforeAvoidance (three : Three T)
    (objectPosition velocity : Vector3 T) : Vector3 T :=
  repulsion (calculateDistance objectPosition (mousePosition three))
    objectPosition (mousePosition three)
    (gravity (calculateDistance objectPosition moonCenter) objectPosition
       (damp velocity)).

(** The [useFrame] callback, lines 51-101. An unmounted mesh returns on
    line 52. [None] is the [TypeError] of line 100 when [allObjects[index]]
    is [undefined]; nothing is said of the state it leaves behind. *)
Definition useFrame (three : Three T) (o : FloatingObject T)
    (allObjects : list (Vector3 T))
  : option (FloatingObject T * list (Vector3 T)) :=
  match mesh o with
  | None => Some (o, allObjects)
  | Some objectPosition =>
      let distanceToMoon := calculateDistance objectPosition moonCenter in
      let velocity :=
        forces (index o) three objectPosition (velocity o) allObjects in
      let position := Vector3.add objectPosition velocity in
      let '(position, velocity) := surface distanceToMoon position velocity in
      match allObjects !! index o with
      | None => None
      | Some _ =>
          Some (mkFloatingObject (index o) (type o) (Some position) velocity
                  (isHovered o),
                <[index o := position]> allObjects)
      end
  end.

(** One rendered frame. The render loop calls the subscribed [useFrame]
    callbacks one after the other in the order of their subscription, which
    for the siblings of line 189 is their order in the array; each runs on
    the registry the previous one left. *)
Fixpoint frame (three : Three T) (objects : list (FloatingObject T))
    (allObjects : list (Vector3 T))
  : option (list (FloatingObject T) * list (Vector3 T)) :=
  match objects with
  | [] => Some ([], allObjects)
  | o :: rest =>
      '(o', allObjects) ← useFrame three o allObjects;
      '(rest', allObjects) ← frame three rest allObjects;
      Some (o' :: rest', allObjects)
  end.

(** line 194 *)
Definition typeOf (index : nat) : ObjectType :=
  match index mod 3 with 0 => box | 1 => sphere | _ => disk end%nat.

(** lines 189-197: one object per registry entry, with the mount effect of
    line 47 already run and the velocity at rest. *)
Definition mount (objectPositions : list (Vector3 T))
  : list (FloatingObject T) :=
  imap (fun index position =>
          mkFloatingObject index (typeOf index) (Some position)
            (Vector3.new (ofZ 0) (ofZ 0) (ofZ 0)) false)
       objectPositions.
End FloatingObject.

(* ================================================================== *)
(** ** The scene: pointer events and rendered frames *)

Inductive Event (T : Type) : Type :=
| Frame (three : Three T)        (* one rendered frame *)
| PointerOver (i : nat)          (* [onPointerOver] of object [i] *)
| PointerOut (i : nat).          (* [onPointerOut] of object [i] *)
Arguments Frame {T} _.
Arguments PointerOver {T} _.
Arguments PointerOut {T} _.

Record SceneState (T : Type) : Type := mkSceneState {
  objects         : list (FloatingObject T);
  objectPositions : list (Vector3 T)
}.
Arguments mkSceneState {T} _ _.
Arguments objects {T} _.
Arguments objectPositions {T} _.

Section Scene.
Context {T : Type} `{Number T}.

Definition setIsHovered (h : bool) (o : FloatingObject T) : FloatingObject T :=
  mkFloatingObject (index o) (type o) (mesh o) (velocity o) h.

Definition step (e : Event T) (s : SceneState T) : option (SceneState T) :=
  match e with
  | Frame three =>
      '(objs, allObjects) ← frame three (objects s) (objectPositions s);
      Some (mkSceneState objs allObjects)
  | PointerOver i =>
      Some (mkSceneState (alter (setIsHovered true) i (objects s))
              (objectPositions s))
  | PointerOut i =>
      Some (mkSceneState (alter (setIsHovered false) i (objects s))
              (objectPositions s))
  end.

Fixpoint run (es : list (Event T)) (s : SceneState T) : option (SceneState T) :=
  match es with
  | [] => Some s
  | e :: es => s ← step e s; run es s
  end.

(** What of an object the motion rule and the renderer's placement see:
    everything but the hover flag. *)
Definition motion (o : FloatingObject T)
  : nat * ObjectType * option (Vector3 T) * Vector3 T :=
  (index o, type o, mesh o, velocity o).

Definition motionState (s : SceneState T) :=
  (map motion (objects s), objectPositions s).

(** The same projection under the results of a callback and of a frame. *)
Definition motionOfResult
    (r : option (FloatingObject T * list (Vector3 T))) :=
  (fun '(o, allObjects) => (motion o, allObjects)) <$> r.

Definition motionOfFrame
    (r : option (list (FloatingObject T) * list (Vector3 T))) :=
  (fun '(os, allObjects) => (map motion os, allObjects)) <$> r.

(** The rendered frames of a trace, pointer events erased. *)
Definition frames (es : list (Event T)) : list (Three T) :=
  omap (fun e => match e with Frame three => Some three | _ => None end) es.
End Scene.

(* ================================================================== *)
(** ** The initial layout, lines 158-178

    [random k] is the value of the [k]-th call of [Math.random()]; the
    number of calls made so far is threaded through the loops. *)

Section Layout.
Local Open Scope R_scope.
Variable random : nat -> R.

Definition totalObjects : nat := 48.

(** lines 167-174: one round of the inner loop *)
Definition pushObject (layer objectsInLayer i : nat)
    (st : list (Vector3 R) * nat) : list (Vector3 R) * nat :=
  let '(positions, calls) := st in
  let layerOffset := INR layer * 1.5 in
  let angle := (INR i / INR objectsInLayer) * PI * 2 in
  let radius := 5 + random calls * 2 in
  let y := (random (S calls) - 0.5) * 4 + layerOffset in
  (positions ++ [Vector3.new (cos angle * radius) y (sin angle * radius)],
   S (S calls)).

(** lines 163-175: one round of the outer loop *)
Definition pushLayer (layer : nat) (st : list (Vector3 R) * nat)
  : list (Vector3 R) * nat :=
  let objectsInLayer := (totalObjects / 3)%nat in
  fold_left (fun st i => pushObject layer objectsInLayer i st)
            (seq 0 objectsInLayer) st.

Definition initialPositions : list (Vector3 R) :=
  fst (fold_left (fun st layer => pushLayer layer st) (seq 0 3) ([], 0%nat)).

(** The object that round [i] of layer [layer] pushes when [calls] values
    have been drawn before it. *)
Definition objectAt (layer objectsInLayer i calls : nat) : Vector3 R :=
  let angle := (INR i / INR objectsInLayer) * PI * 2 in
  let radius := 5 + random calls * 2 in
  Vector3.new (cos angle * radius)
    ((random (S calls) - 0.5) * 4 + INR layer * 1.5)
    (sin angle * radius).
End Layout.

(* ================================================================== *)
(** ** The surface rule as the specification words it

    Step 6 read after step 5: the trigger distance is taken from the
    position that line 91 has just produced. Compared with [useFrame]
    below. *)

Section AsSpecified.
Context {T : Type} `{Number T}.

Definition useFrame_as_specified (three : Three T) (o : FloatingObject T)
    (allObjects : list (Vector3 T))
  : option (FloatingObject T * list (Vector3 T)) :=
  match mesh o with
  | None => Some (o, allObjects)
  | Some objectPosition =>
      let velocity :=
        forces (index o) three objectPosition (velocity o) allObjects in
      let position := Vector3.add objectPosition velocity in
      let '(position, velocity) :=
        surface (calculateDistance position moonCenter) position velocity in
      match allObjects !! index o with
      | None => None
      | Some _ =>
          Some (mkFloatingObject (index o) (type o) (Some position) velocity
                  (isHovered o),
                <[index o := position]> allObjects)
      end
  end.
End AsSpecified.

(* ================================================================== *)
(** ** Bodies under no influence but the attractor *)

(** The influence point is out of reach and every other registry entry is
    at least the spacing away. *)
Definition noOtherInfluence (index : nat) (three : Three R)
    (objectPosition : Vector3 R) (allObjects : list (Vector3 R)) : Prop :=
  (4 <= calculateDistance objectPosition (mousePosition three))%R
  /\ forall j q, allObjects !! j = Some q -> j <> index ->
                 (0.6 <= calculateDistance objectPosition q)%R.

(* ================================================================== *)
(** ** The surface correction, and two bodies that cross the shell *)

Section Scenarios.
Local Open Scope R_scope.

(** Lines 94-97 at the real numbers: a fifth of the way to the shell point
    and the velocity scaled by [0.8]. *)
Definition surfaceCorrection (position velocity : Vector3 R)
  : Vector3 R * Vector3 R :=
  (Vector3.lerp position
     (Vector3.multiplyScalar (Vector3.normalize position) 3.5) 0.2,
   Vector3.multiplyScalar velocity 0.8).

(** A body on the shell radius moving inwards at one unit per frame, alone
    in the registry. *)
Definition inbound : FloatingObject R :=
  mkFloatingObject 0 box (Some (Vector3.new 3.5 0 0)) (Vector3.new (-1) 0 0)
    false.

(** A body on the attractor's surface moving outwards at two units per
    frame. *)
Definition outbound : FloatingObject R :=
  mkFloatingObject 0 box (Some (Vector3.new 3 0 0)) (Vector3.new 2 0 0) false.

(** The pointer at the bottom edge of a 46 by 23 viewport: the influence
    point is [(0, -11.5, 0)]. *)
Definition pointerAway : Three R := mkThree 0 (-1) 46 23.

(** A body at rest six units out on the first axis, alone in the registry,
    and the pointer at the right edge's midpoint of an 8 by 8 viewport: the
    influence point is [(4, 0, 0)], two units from the body. *)
Definition pushed : FloatingObject R :=
  mkFloatingObject 0 box (Some (Vector3.new 6 0 0)) (Vector3.new 0 0 0) false.

Definition pointerNear : Three R := mkThree 1 0 8 8.

(** A body at rest ten units out on the first axis. *)
Definition resting : FloatingObject R :=
  mkFloatingObject 0 box (Some (Vector3.new 10 0 0)) (Vector3.new 0 0 0) false.

(** The registry of the end-to-end scenario. *)
Definition threeBodies : list (Vector3 R) :=
  [Vector3.new 10 0 0; Vector3.new 0 10 0; Vector3.new 0 0 10].

(** [normalize(center - position) * 0.02], the attraction term. *)
Definition pull (position : Vector3 R) : Vector3 R :=
  Vector3.multiplyScalar (Vector3.normalize (Vector3.sub moonCenter position))
    0.02.
End Scenarios.

(* ================================================================== *)
(** ** Finite binary64 results *)

(** [Number.isFinite] on each coordinate. *)
Definition isFiniteVector (v : Vector3 PrimFloat.float) : bool :=
  PrimFloat.is_finite (Vector3.x v) && PrimFloat.is_finite (Vector3.y v)
  && PrimFloat.is_finite (Vector3.z v).

(** A callback result with every number in it finite. *)
Definition isFiniteResult
    (r : option (FloatingObject PrimFloat.float * list (Vector3 PrimFloat.float)))
  : bool :=
  match r with
  | Some (o, allObjects) =>
      match mesh o with Some p => isFiniteVector p | None => false end
      && isFiniteVector (velocity o) && forallb isFiniteVector allObjects
  | None => false
  end.

(** A body that sits on the influence point and on another body, and a body
    that sits on the attractor's centre, in binary64. *)
Definition onPointer : Vector3 PrimFloat.float :=
  Vector3.new (ofZ 2) (ofZ 2) (ofZ 0).

Definition pointerOnBody : Three PrimFloat.float :=
  mkThree (dec 125 1000) (dec 25 100) (ofZ 32) (ofZ 16).

Definition pointerOnCentre : Three PrimFloat.float :=
  mkThree (ofZ 0) (ofZ 0) (ofZ 32) (ofZ 16).

Definition coincident : FloatingObject PrimFloat.float :=
  mkFloatingObject 0 box (Some onPointer)
    (Vector3.new (dec 25 100) (dec (-5) 10) (ofZ 1)) false.

Definition centred : FloatingObject PrimFloat.float :=
  mkFloatingObject 0 box (Some moonCenter) moonCenter false.

(** Two bodies [0.57] apart, at rest, the pointer far away, in binary64. *)
Definition leader : FloatingObject PrimFloat.float :=
  mkFloatingObject 0 box (Some (Vector3.new (ofZ 5) (ofZ 0) (ofZ 0)))
    moonCenter false.

Definition follower : FloatingObject PrimFloat.float :=
  mkFloatingObject 1 sphere (Some (Vector3.new (dec 557 100) (ofZ 0) (ofZ 0)))
    moonCenter false.

Definition pointerFar : Three PrimFloat.float :=
  mkThree (ofZ 0) (ofZ (-1)) (ofZ 46) (ofZ 23).

(* ================================================================== *)
(** ** The moon, lines 133-155 *)

Section Moon.
Context {T : Type} `{Number T}.

(** lines 136-140: the callback of [Moon] on [moonRef.current.rotation.y],
    [None] while the ref is [null]. *)
Definition Moon_useFrame (rotation_y : option T) : option T :=
  (fun y => (y + dec 5 10000)%num) <$> rotation_y.
End Moon.

(* ================================================================== *)
(** ** A scene as [Scene] mounts it *)

Section Mounted.
Context {T : Type} `{Number T}.

(** One object per registry slot, object [i] with index [i], each mesh at
    the position its slot holds. *)
Definition wellMounted (s : SceneState T) : Prop :=
  length (objects s) = length (objectPositions s)
  /\ forall i o, objects s !! i = Some o ->
                 index o = i /\ mesh o = objectPositions s !! i.
End Mounted.

#[export] Instance ObjectType_eq_dec : EqDecision ObjectType.
Proof. solve_decision. Defined.

(** How many of the objects are rendered with geometry [t]. *)
Definition countType {T : Type} (t : ObjectType) (os : list (FloatingObject T))
  : nat :=
  count_occ ObjectType_eq_dec (map type os) t.

(** The speed no body of an [n]-slot registry exceeds once it is below it:
    the fixed point of [0.95 * s + 0.32 + 0.02 * n]. *)
Definition speedLimit (n : nat) : R := (6.4 + 0.4 * INR n)%R.

(* ================================================================== *)
(** ** Laws of the vector operations over the reals *)

Ltac unfold_num :=
  cbv [ofZ nadd nsub nmul ndiv nsqrt nltb truthy Number_R dec js_or
       MOON_RADIUS GRAVITY_STRENGTH REPULSION_STRENGTH DAMPING
       MOUSE_INFLUENCE_RADIUS OBJECT_SPACING] in *.

Ltac unfold_vec :=
  cbv [Vector3.add Vector3.sub Vector3.multiplyScalar Vector3.divideScalar
       Vector3.length Vector3.normalize Vector3.distanceTo
       Vector3.distanceToSquared Vector3.lerp calculateDistance moonCenter
       Vector3.x Vector3.y Vector3.z] in *;
  unfold_num.

Section RealVectors.
Local Open Scope R_scope.
Implicit Types (a b p q v : Vector3 R) (s d c : R).

Lemma Rltb_true s d : s < d -> Rltb s d = true.
Proof. unfold Rltb. destruct (Rlt_dec s d); [reflexivity | contradiction]. Qed.

Lemma Rltb_false s d : d <= s -> Rltb s d = false.
Proof. unfold Rltb. destruct (Rlt_dec s d); [lra | reflexivity]. Qed.

Lemma Rtruthy_true s : s <> 0 -> Rtruthy s = true.
Proof. unfold Rtruthy. destruct (Req_dec_T s 0); [contradiction | reflexivity]. Qed.

Lemma Rtruthy_zero : Rtruthy 0 = false.
Proof. unfold Rtruthy. destruct (Req_dec_T 0 0); [reflexivity | contradiction]. Qed.

Lemma Vector3_eq a b :
  Vector3.x a = Vector3.x b -> Vector3.y a = Vector3.y b ->
  Vector3.z a = Vector3.z b -> a = b.
Proof. destruct a, b; simpl; intros; subst; reflexivity. Qed.

Lemma sumsq_nonneg (x y z : R) : 0 <= x * x + y * y + z * z.
Proof. nra. Qed.

Lemma length_nonneg v : 0 <= Vector3.length v.
Proof. unfold_vec. apply sqrt_pos. Qed.

Lemma distanceTo_length a b :
  Vector3.distanceTo a b = Vector3.length (Vector3.sub a b).
Proof. reflexivity. Qed.

Lemma length_multiplyScalar v s :
  0 <= s -> Vector3.length (Vector3.multiplyScalar v s) = s * Vector3.length v.
Proof.
  intros Hs. destruct v as [x y z]. unfold_vec.
  replace (x * s * (x * s) + y * s * (y * s) + z * s * (z * s))
    with ((s * s) * (x * x + y * y + z * z)) by ring.
  rewrite sqrt_mult; [| nra | apply sumsq_nonneg].
  rewrite sqrt_square by assumption. reflexivity.
Qed.

Lemma length_zero_iff v :
  Vector3.length v = 0 <-> v = Vector3.new 0 0 0.
Proof.
  destruct v as [x y z]. split.
  - unfold_vec. intros E. apply sqrt_eq_0 in E; [| apply sumsq_nonneg].
    assert (x = 0) by nra. assert (y = 0) by nra. assert (z = 0) by nra.
    subst. reflexivity.
  - intros E. inversion E; subst. unfold_vec.
    replace (0 * 0 + 0 * 0 + 0 * 0) with 0 by ring. apply sqrt_0.
Qed.

(** Away from the zero vector [normalize] divides by the length. *)
Lemma normalize_nonzero v :
  Vector3.length v <> 0 ->
  Vector3.normalize v = Vector3.multiplyScalar v (1 / Vector3.length v).
Proof.
  intros Hl. unfold Vector3.normalize, Vector3.divideScalar, js_or.
  cbn [truthy Number_R ofZ]. rewrite Rtruthy_true by assumption. reflexivity.
Qed.

(** At the zero vector [length() || 1] is [1] and the vector is returned
    as it is. *)
Lemma normalize_zero :
  Vector3.normalize (Vector3.new 0 0 0) = Vector3.new 0 0 0.
Proof.
  unfold Vector3.normalize, Vector3.divideScalar, js_or.
  cbn [truthy Number_R ofZ].
  replace (Vector3.length (Vector3.new 0 0 0)) with 0
    by (symmetry; apply length_zero_iff; reflexivity).
  rewrite Rtruthy_zero. unfold_vec. f_equal; lra.
Qed.

Lemma length_normalize v :
  Vector3.length v <> 0 -> Vector3.length (Vector3.normalize v) = 1.
Proof.
  intros Hl. rewrite normalize_nonzero by assumption.
  pose proof (length_nonneg v) as Hp.
  rewrite length_multiplyScalar.
  - field. assumption.
  - apply Rlt_le. apply Rdiv_lt_0_compat; lra.
Qed.

Lemma sub_self p : Vector3.sub p p = Vector3.new 0 0 0.
Proof. destruct p. unfold_vec. f_equal; lra. Qed.

Lemma add_zero v : Vector3.add v (Vector3.new 0 0 0) = v.
Proof. destruct v. unfold_vec. f_equal; lra. Qed.

Lemma multiplyScalar_zero s :
  Vector3.multiplyScalar (Vector3.new 0 0 0) s = Vector3.new 0 0 0.
Proof. unfold_vec. f_equal; lra. Qed.

Lemma distanceTo_self p : Vector3.distanceTo p p = 0.
Proof.
  rewrite distanceTo_length, sub_self. apply length_zero_iff. reflexivity.
Qed.

Lemma length_of_square v c :
  0 <= c ->
  Vector3.x v * Vector3.x v + Vector3.y v * Vector3.y v
    + Vector3.z v * Vector3.z v = c * c ->
  Vector3.length v = c.
Proof.
  intros Hc E. unfold Vector3.length. cbn [nsqrt nadd nmul Number_R].
  rewrite E. apply sqrt_square. exact Hc.
Qed.

Lemma distanceTo_of_square p q c :
  0 <= c ->
  Vector3.distanceToSquared p q = c * c -> calculateDistance p q = c.
Proof.
  intros Hc E. unfold calculateDistance, Vector3.distanceTo.
  cbn [nsqrt Number_R]. rewrite E. apply sqrt_square. exact Hc.
Qed.

Lemma distanceTo_at_least p q c :
  0 <= c ->
  c * c <= Vector3.distanceToSquared p q -> c <= calculateDistance p q.
Proof.
  intros Hc E. unfold calculateDistance, Vector3.distanceTo.
  cbn [nsqrt Number_R]. rewrite <- (sqrt_square c) at 1 by exact Hc.
  apply sqrt_le_1_alt. exact E.
Qed.

Lemma normalize_of_length v c :
  0 < c -> Vector3.length v = c ->
  Vector3.normalize v = Vector3.multiplyScalar v (1 / c).
Proof.
  intros Hc E. rewrite normalize_nonzero; rewrite E; [reflexivity | lra].
Qed.

End RealVectors.

(* ================================================================== *)
(** ** The force rules over the reals *)

Section RealForces.
Local Open Scope R_scope.
Implicit Types (p q v M : Vector3 R) (d : R) (three : Three R).

Lemma MOON_RADIUS_val : @MOON_RADIUS R _ = 3.
Proof. reflexivity. Qed.

Lemma GRAVITY_STRENGTH_val : @GRAVITY_STRENGTH R _ = 0.02.
Proof. unfold_num. lra. Qed.

Lemma REPULSION_STRENGTH_val : @REPULSION_STRENGTH R _ = 0.3.
Proof. unfold_num. lra. Qed.

Lemma DAMPING_val : @DAMPING R _ = 0.95.
Proof. unfold_num. lra. Qed.

Lemma MOUSE_INFLUENCE_RADIUS_val : @MOUSE_INFLUENCE_RADIUS R _ = 4.
Proof. reflexivity. Qed.

Lemma OBJECT_SPACING_val : @OBJECT_SPACING R _ = 0.6.
Proof. unfold_num. lra. Qed.

Lemma shell_val : (@MOON_RADIUS R _ + dec 5 10)%num = 3.5.
Proof. unfold_num. lra. Qed.

Lemma gravity_outside d p v :
  3 < d ->
  gravity d p v =
  Vector3.add v
    (Vector3.multiplyScalar (Vector3.normalize (Vector3.sub moonCenter p)) 0.02).
Proof.
  intros Hd. unfold gravity. cbn [nltb Number_R].
  rewrite Rltb_true by (rewrite MOON_RADIUS_val; exact Hd).
  rewrite GRAVITY_STRENGTH_val. reflexivity.
Qed.

Lemma gravity_inside d p v : d <= 3 -> gravity d p v = v.
Proof.
  intros Hd. unfold gravity. cbn [nltb Number_R].
  rewrite Rltb_false by (rewrite MOON_RADIUS_val; exact Hd). reflexivity.
Qed.

Lemma repulsion_near d p M v :
  d < 4 ->
  repulsion d p M v =
  Vector3.add v
    (Vector3.multiplyScalar (Vector3.normalize (Vector3.sub p M))
       (0.3 * (1 - d / 4))).
Proof.
  intros Hd. unfold repulsion. cbn [nltb Number_R].
  rewrite Rltb_true by (rewrite MOUSE_INFLUENCE_RADIUS_val; exact Hd).
  cbn [nmul nsub ndiv Number_R ofZ].
  rewrite REPULSION_STRENGTH_val, MOUSE_INFLUENCE_RADIUS_val. reflexivity.
Qed.

Lemma repulsion_far d p M v : 4 <= d -> repulsion d p M v = v.
Proof.
  intros Hd. unfold repulsion. cbn [nltb Number_R].
  rewrite Rltb_false by (rewrite MOUSE_INFLUENCE_RADIUS_val; exact Hd).
  reflexivity.
Qed.

Lemma avoid_self index p q v : avoid index p q index v = v.
Proof. unfold avoid. destruct (decide (index <> index)); [congruence | reflexivity]. Qed.

Lemma avoid_close index p q i v :
  i <> index -> calculateDistance p q < 0.6 ->
  avoid index p q i v =
  Vector3.add v
    (Vector3.multiplyScalar (Vector3.normalize (Vector3.sub p q)) 0.02).
Proof.
  intros Hi Hd. unfold avoid.
  destruct (decide (i <> index)); [| contradiction].
  cbn [nltb Number_R].
  rewrite Rltb_true by (rewrite OBJECT_SPACING_val; exact Hd).
  replace (dec 2 100) with 0.02 by (unfold_num; lra). reflexivity.
Qed.

Lemma avoid_apart index p q i v :
  0.6 <= calculateDistance p q -> avoid index p q i v = v.
Proof.
  intros Hd. unfold avoid.
  destruct (decide (i <> index)); [| reflexivity].
  cbn [nltb Number_R].
  rewrite Rltb_false by (rewrite OBJECT_SPACING_val; exact Hd). reflexivity.
Qed.

Lemma surface_near d q v :
  d < 3.5 ->
  surface d q v =
  (Vector3.lerp q (Vector3.multiplyScalar (Vector3.normalize q) 3.5) 0.2,
   Vector3.multiplyScalar v 0.8).
Proof.
  intros Hd. unfold surface. cbn [nltb Number_R]. rewrite shell_val.
  rewrite Rltb_true by exact Hd.
  replace (dec 2 10) with 0.2 by (unfold_num; lra).
  replace (dec 8 10) with 0.8 by (unfold_num; lra). reflexivity.
Qed.

Lemma surface_far d q v : 3.5 <= d -> surface d q v = (q, v).
Proof.
  intros Hd. unfold surface. cbn [nltb Number_R]. rewrite shell_val.
  rewrite Rltb_false by exact Hd. reflexivity.
Qed.

(** Every other registry entry at least the spacing away: the [forEach]
    leaves the velocity alone. *)
Lemma avoidance_apart index p allObjects : forall i v,
  (forall j q, allObjects !! j = Some q -> (i + j)%nat <> index ->
               0.6 <= calculateDistance p q) ->
  avoidance index p i allObjects v = v.
Proof.
  induction allObjects as [| q rest IH]; intros i v Hfar; [reflexivity |].
  cbn [avoidance]. rewrite IH.
  - destruct (decide (i = index)) as [-> | Hne]; [apply avoid_self |].
    apply avoid_apart. apply (Hfar 0%nat q); [reflexivity | lia].
  - intros j q' Hj Hne. apply (Hfar (S j) q'); [exact Hj | lia].
Qed.

End RealForces.

(* ================================================================== *)
(** ** Damping, repulsion and the degenerate directions *)

Section RealClaims.
Local Open Scope R_scope.
Implicit Types (p q v M : Vector3 R) (d : R) (three : Three R).

Lemma length_damp v : Vector3.length (damp v) = 0.95 * Vector3.length v.
Proof.
  unfold damp. rewrite DAMPING_val. apply length_multiplyScalar. lra.
Qed.

Lemma length_iter_damp v n :
  Vector3.length (Nat.iter n damp v) = 0.95 ^ n * Vector3.length v.
Proof.
  induction n as [| n IH]; [simpl; lra |].
  rewrite Nat.iter_succ, length_damp, IH. simpl. ring.
Qed.

(** C7. Damping alone (line 68, repeated): after [n] rounds the speed is
    [0.95^n] times the initial speed, and so it falls below every positive
    bound from some round on. *)
Theorem damping_alone_geometric v :
  (forall n, Vector3.length (Nat.iter n damp v) = 0.95 ^ n * Vector3.length v)
  /\ (forall eps, 0 < eps ->
        exists N, forall n, (N <= n)%nat ->
          Vector3.length (Nat.iter n damp v) < eps).
Proof.
  split; [intros n; apply length_iter_damp |].
  intros eps Heps. pose proof (length_nonneg v) as Hv.
  destruct (Req_dec_T (Vector3.length v) 0) as [Hz | Hnz].
  - exists 0%nat. intros n _. rewrite length_iter_damp, Hz. lra.
  - assert (Hpos : 0 < eps / Vector3.length v)
      by (apply Rdiv_lt_0_compat; lra).
    destruct (pow_lt_1_zero 0.95 ltac:(rewrite Rabs_right; lra) _ Hpos)
      as [N HN].
    exists N. intros n Hn. rewrite length_iter_damp.
    specialize (HN n ltac:(lia)).
    rewrite Rabs_right in HN by (apply Rle_ge, pow_le; lra).
    apply (Rmult_lt_compat_r (Vector3.length v)) in HN; [| lra].
    replace (eps / Vector3.length v * Vector3.length v) with eps in HN
      by (field; exact Hnz).
    exact HN.
Qed.

Lemma scaled_normalize p s :
  Vector3.length p <> 0 ->
  Vector3.multiplyScalar (Vector3.normalize p) s =
  Vector3.multiplyScalar p (s / Vector3.length p).
Proof.
  intros Hl. rewrite normalize_nonzero by exact Hl.
  destruct p as [x y z]. cbv [Vector3.multiplyScalar Vector3.x Vector3.y Vector3.z].
  cbn [nmul Number_R]. f_equal; field; exact Hl.
Qed.

End RealClaims.

(* ================================================================== *)
(** ** The hover flag and the motion rule, for any numbers *)

Section Hover.
Context {T : Type} `{Number T}.
Implicit Types (o : FloatingObject T) (s : SceneState T) (three : Three T).
#[local] Arguments motion : simpl never.

Lemma useFrame_motion three o1 o2 allObjects :
  motion o1 = motion o2 ->
  motionOfResult (useFrame three o1 allObjects) =
  motionOfResult (useFrame three o2 allObjects).
Proof.
  destruct o1 as [i1 t1 m1 v1 h1], o2 as [i2 t2 m2 v2 h2].
  unfold motion; cbn. intros [= -> -> -> ->].
  unfold useFrame; cbn.
  destruct m2 as [p |]; [| reflexivity].
  destruct (surface _ _ _) as [q w].
  destruct (allObjects !! i2); reflexivity.
Qed.

Lemma frame_motion three : forall os1 os2 allObjects,
  map motion os1 = map motion os2 ->
  motionOfFrame (frame three os1 allObjects) =
  motionOfFrame (frame three os2 allObjects).
Proof.
  induction os1 as [| o1 os1 IH]; intros [| o2 os2] allObjects Hm;
    try discriminate; [reflexivity |].
  rewrite !map_cons in Hm.
  assert (Ho : motion o1 = motion o2) by congruence.
  assert (Hos : map motion os1 = map motion os2) by congruence.
  pose proof (useFrame_motion three o1 o2 allObjects Ho) as Hu.
  cbn [frame].
  destruct (useFrame three o1 allObjects) as [[o1' reg1] |],
           (useFrame three o2 allObjects) as [[o2' reg2] |];
    cbn in Hu; try discriminate; [| reflexivity].
  apply (inj Some), pair_equal_spec in Hu. destruct Hu as [Ho' <-]. cbn.
  specialize (IH os2 reg1 Hos).
  destruct (frame three os1 reg1) as [[os1' reg1'] |],
           (frame three os2 reg1) as [[os2' reg2'] |];
    cbn in IH; try discriminate; [| reflexivity].
  apply (inj Some), pair_equal_spec in IH. destruct IH as [Hos' <-].
  cbn. rewrite Ho', Hos'. reflexivity.
Qed.

Lemma motion_setIsHovered h o : motion (setIsHovered h o) = motion o.
Proof. reflexivity. Qed.

Lemma map_motion_alter h i (os : list (FloatingObject T)) :
  map motion (alter (setIsHovered h) i os) = map motion os.
Proof.
  revert i. induction os as [| o os IH]; intros [| i]; cbn; try reflexivity.
  f_equal. apply IH.
Qed.

Lemma step_motion e s1 s2 :
  motionState s1 = motionState s2 ->
  motionState <$> step e s1 = motionState <$> step e s2.
Proof.
  destruct s1 as [os1 reg1], s2 as [os2 reg2]. unfold motionState; cbn.
  intros [= Hos <-].
  destruct e as [three | i | i]; cbn.
  - pose proof (frame_motion three os1 os2 reg1 Hos) as Hf.
    destruct (frame three os1 reg1) as [[os1' r1] |],
             (frame three os2 reg1) as [[os2' r2] |];
      cbn in Hf; try discriminate; [| reflexivity].
    apply (inj Some), pair_equal_spec in Hf. destruct Hf as [Hf <-].
    unfold motionState; cbn. rewrite Hf. reflexivity.
  - unfold motionState; cbn. rewrite !map_motion_alter, Hos. reflexivity.
  - unfold motionState; cbn. rewrite !map_motion_alter, Hos. reflexivity.
Qed.

(** A trace moves the bodies as its rendered frames alone do. *)
Lemma run_frames : forall es s1 s2,
  motionState s1 = motionState s2 ->
  motionState <$> run es s1 = motionState <$> run (map Frame (frames es)) s2.
Proof.
  induction es as [| e es IH]; intros s1 s2 Hs.
  - cbn. rewrite Hs. reflexivity.
  - destruct e as [three | i | i].
    + pose proof (step_motion (Frame three) s1 s2 Hs) as Hstep.
      change (frames (Frame three :: es)) with (three :: frames es).
      cbn [map run].
      destruct (step (Frame three) s1) as [s1' |],
               (step (Frame three) s2) as [s2' |];
        cbn in Hstep; try discriminate; [| reflexivity].
      apply (inj Some) in Hstep. cbn. apply IH. exact Hstep.
    + change (frames (PointerOver i :: es)) with (frames es).
      cbn [run step]. cbn. apply IH.
      rewrite <- Hs. unfold motionState; cbn. rewrite map_motion_alter.
      reflexivity.
    + change (frames (PointerOut i :: es)) with (frames es).
      cbn [run step]. cbn. apply IH.
      rewrite <- Hs. unfold motionState; cbn. rewrite map_motion_alter.
      reflexivity.
Qed.

(** The flag is read by [scale] alone. *)
Remark scale_setIsHovered h o :
  scale (setIsHovered h o) = if h then dec 11 10 else ofZ 1.
Proof. destruct h; reflexivity. Qed.

(** C9. Two runs of the scene that render the same frames from the same
    positions, velocities and registry end with the same positions,
    velocities and registry, whatever pointer-over and pointer-out events
    fall in between and whatever the hover flags were: the flag only picks
    the target of [scale]. *)
Theorem hover_does_not_move (es1 es2 : list (Event T)) s1 s2 :
  frames es1 = frames es2 ->
  motionState s1 = motionState s2 ->
  motionState <$> run es1 s1 = motionState <$> run es2 s2.
Proof.
  intros Hf Hs.
  rewrite (run_frames es1 s1 s1 eq_refl), (run_frames es2 s2 s1 (eq_sym Hs)).
  rewrite Hf. reflexivity.
Qed.

End Hover.

(* ================================================================== *)
(** ** The callback as a whole *)

Section Callback.
Context {T : Type} `{Number T}.

(** A mounted object with a registry slot: the callback goes through all
    of lines 65-100. *)
Lemma useFrame_mounted (three : Three T) (o : FloatingObject T)
    (allObjects : list (Vector3 T)) (p : Vector3 T) :
  mesh o = Some p -> (index o < length allObjects)%nat ->
  useFrame three o allObjects =
  let v := forces (index o) three p (velocity o) allObjects in
  let r := surface (calculateDistance p moonCenter) (Vector3.add p v) v in
  Some (mkFloatingObject (index o) (type o) (Some (fst r)) (snd r)
          (isHovered o),
        <[index o := fst r]> allObjects).
Proof.
  intros Hm Hi. unfold useFrame. rewrite Hm.
  destruct (lookup_lt_is_Some_2 allObjects (index o) Hi) as [r0 Hr].
  rewrite Hr. cbv zeta. destruct (surface _ _ _) as [q w]. reflexivity.
Qed.

Lemma useFrame_as_specified_mounted (three : Three T) (o : FloatingObject T)
    (allObjects : list (Vector3 T)) (p : Vector3 T) :
  mesh o = Some p -> (index o < length allObjects)%nat ->
  useFrame_as_specified three o allObjects =
  let v := forces (index o) three p (velocity o) allObjects in
  let q := Vector3.add p v in
  let r := surface (calculateDistance q moonCenter) q v in
  Some (mkFloatingObject (index o) (type o) (Some (fst r)) (snd r)
          (isHovered o),
        <[index o := fst r]> allObjects).
Proof.
  intros Hm Hi. unfold useFrame_as_specified. rewrite Hm.
  destruct (lookup_lt_is_Some_2 allObjects (index o) Hi) as [r0 Hr].
  rewrite Hr. cbv zeta. destruct (surface _ _ _) as [q w]. reflexivity.
Qed.

End Callback.

(* ================================================================== *)
(** ** The surface rule and the distance it tests *)

Section RealSurface.
Local Open Scope R_scope.
Implicit Types (p q v M : Vector3 R) (d c : R) (three : Three R).

Ltac vec_eq :=
  apply Vector3_eq; unfold_vec;
  cbv [mousePosition mouse_x mouse_y viewport_width viewport_height damp];
  unfold_vec; try lra; try (field; lra).

(** The two ways the surface rule can go, on the distance of line 65. *)
Lemma useFrame_surface three (o : FloatingObject R) allObjects p :
  mesh o = Some p -> (index o < length allObjects)%nat ->
  let d := calculateDistance p moonCenter in
  let v := forces (index o) three p (velocity o) allObjects in
  let q := Vector3.add p v in
  let q' := Vector3.lerp q
              (Vector3.multiplyScalar (Vector3.normalize q) 3.5) 0.2 in
  useFrame three o allObjects =
  if Rlt_dec d 3.5 then
    Some (mkFloatingObject (index o) (type o) (Some q')
            (Vector3.multiplyScalar v 0.8) (isHovered o),
          <[index o := q']> allObjects)
  else
    Some (mkFloatingObject (index o) (type o) (Some q) v (isHovered o),
          <[index o := q]> allObjects).
Proof.
  intros Hm Hi d v q q'. rewrite (useFrame_mounted three o allObjects p Hm Hi).
  cbv zeta. fold d. fold v. fold q.
  destruct (Rlt_dec d 3.5) as [Hd | Hd].
  - rewrite surface_near by exact Hd. reflexivity.
  - rewrite surface_far by lra. reflexivity.
Qed.

Lemma pointerAway_far c :
  4 <= calculateDistance (Vector3.new c 0 0) (mousePosition pointerAway).
Proof.
  apply distanceTo_at_least; [lra |].
  cbv [pointerAway mousePosition mouse_x mouse_y viewport_width viewport_height].
  unfold_vec. nra.
Qed.

Lemma inbound_distance :
  calculateDistance (Vector3.new 3.5 0 0) moonCenter = 3.5.
Proof. apply distanceTo_of_square; [lra |]. unfold_vec. lra. Qed.

Lemma outbound_distance :
  calculateDistance (Vector3.new 3 0 0) moonCenter = 3.
Proof. apply distanceTo_of_square; [lra |]. unfold_vec. lra. Qed.

Lemma inbound_forces :
  forces 0 pointerAway (Vector3.new 3.5 0 0) (Vector3.new (-1) 0 0)
    [Vector3.new 3.5 0 0] = Vector3.new (-0.97) 0 0.
Proof.
  unfold forces. rewrite inbound_distance.
  rewrite gravity_outside by lra.
  rewrite repulsion_far by apply pointerAway_far.
  cbn [avoidance]. rewrite avoid_self.
  rewrite (normalize_of_length _ 3.5);
    [| lra | apply length_of_square; [lra | unfold_vec; lra]].
  vec_eq.
Qed.

Lemma outbound_forces :
  forces 0 pointerAway (Vector3.new 3 0 0) (Vector3.new 2 0 0)
    [Vector3.new 3 0 0] = Vector3.new 1.9 0 0.
Proof.
  unfold forces. rewrite outbound_distance.
  rewrite gravity_inside by lra.
  rewrite repulsion_far by apply pointerAway_far.
  cbn [avoidance]. rewrite avoid_self. vec_eq.
Qed.

End RealSurface.

Section SurfaceClaims.
Local Open Scope R_scope.
Implicit Types (p q v M : Vector3 R) (d c : R) (three : Three R).

Lemma inbound_useFrame :
  useFrame pointerAway inbound [Vector3.new 3.5 0 0] =
  Some (mkFloatingObject 0 box (Some (Vector3.new 2.53 0 0))
          (Vector3.new (-0.97) 0 0) false,
        [Vector3.new 2.53 0 0]).
Proof.
  rewrite (useFrame_surface pointerAway inbound _ (Vector3.new 3.5 0 0))
    by (reflexivity || (cbn; lia)).
  cbv zeta. rewrite inbound_distance.
  destruct (Rlt_dec 3.5 3.5) as [Hlt | _]; [lra |].
  cbn [inbound index type velocity isHovered]. rewrite inbound_forces.
  replace (Vector3.add (Vector3.new 3.5 0 0) (Vector3.new (-0.97) 0 0))
    with (Vector3.new 2.53 0 0) by (unfold_vec; f_equal; lra).
  reflexivity.
Qed.

Lemma inbound_after : calculateDistance (Vector3.new 2.53 0 0) moonCenter = 2.53.
Proof. apply distanceTo_of_square; [lra |]. unfold_vec. lra. Qed.

Lemma inbound_as_specified :
  useFrame_as_specified pointerAway inbound [Vector3.new 3.5 0 0] =
  Some (mkFloatingObject 0 box (Some (Vector3.new 2.724 0 0))
          (Vector3.new (-0.776) 0 0) false,
        [Vector3.new 2.724 0 0]).
Proof.
  rewrite (useFrame_as_specified_mounted pointerAway inbound _
             (Vector3.new 3.5 0 0)) by (reflexivity || (cbn; lia)).
  cbv zeta. cbn [inbound index type velocity isHovered].
  rewrite inbound_forces.
  replace (Vector3.add (Vector3.new 3.5 0 0) (Vector3.new (-0.97) 0 0))
    with (Vector3.new 2.53 0 0) by (unfold_vec; f_equal; lra).
  rewrite inbound_after, surface_near by lra. cbn [fst snd].
  rewrite (normalize_of_length _ 2.53);
    [| lra | apply length_of_square; [lra | unfold_vec; lra]].
  replace (Vector3.lerp _ _ _) with (Vector3.new 2.724 0 0)
    by (unfold_vec; f_equal; lra).
  replace (Vector3.multiplyScalar _ 0.8) with (Vector3.new (-0.776) 0 0)
    by (unfold_vec; f_equal; lra).
  reflexivity.
Qed.

Lemma outbound_useFrame :
  useFrame pointerAway outbound [Vector3.new 3 0 0] =
  Some (mkFloatingObject 0 box (Some (Vector3.new 4.62 0 0))
          (Vector3.new 1.52 0 0) false,
        [Vector3.new 4.62 0 0]).
Proof.
  rewrite (useFrame_surface pointerAway outbound _ (Vector3.new 3 0 0))
    by (reflexivity || (cbn; lia)).
  cbv zeta. rewrite outbound_distance.
  destruct (Rlt_dec 3 3.5) as [_ | Hge]; [| lra].
  cbn [outbound index type velocity isHovered]. rewrite outbound_forces.
  replace (Vector3.add (Vector3.new 3 0 0) (Vector3.new 1.9 0 0))
    with (Vector3.new 4.9 0 0) by (unfold_vec; f_equal; lra).
  rewrite (normalize_of_length _ 4.9);
    [| lra | apply length_of_square; [lra | unfold_vec; lra]].
  replace (Vector3.lerp _ _ _) with (Vector3.new 4.62 0 0)
    by (unfold_vec; f_equal; lra).
  replace (Vector3.multiplyScalar _ 0.8) with (Vector3.new 1.52 0 0)
    by (unfold_vec; f_equal; lra).
  reflexivity.
Qed.

End SurfaceClaims.

Section SurfaceTrigger.
Local Open Scope R_scope.
Implicit Types (p q v M : Vector3 R) (d c : R) (three : Three R).

(** C10. The surface rule tests the distance of line 65, taken before line
    91 moves the mesh, and corrects the moved position: from [3.5] on
    there is no correction this frame, below [3.5] there is. *)
Theorem surface_tests_distance_before_integration
    three (o : FloatingObject R) allObjects p :
  mesh o = Some p -> (index o < length allObjects)%nat ->
  let d := calculateDistance p moonCenter in
  let v := forces (index o) three p (velocity o) allObjects in
  let q := Vector3.add p v in
  let q' := Vector3.lerp q
              (Vector3.multiplyScalar (Vector3.normalize q) 3.5) 0.2 in
  (3.5 <= d ->
   useFrame three o allObjects =
   Some (mkFloatingObject (index o) (type o) (Some q) v (isHovered o),
         <[index o := q]> allObjects))
  /\ (d < 3.5 ->
      useFrame three o allObjects =
      Some (mkFloatingObject (index o) (type o) (Some q')
              (Vector3.multiplyScalar v 0.8) (isHovered o),
            <[index o := q']> allObjects)).
Proof.
  intros Hm Hi d v q q'.
  pose proof (useFrame_surface three o allObjects p Hm Hi) as E.
  cbv zeta in E. fold d v q q' in E.
  split; intros Hd; rewrite E; destruct (Rlt_dec d 3.5); (reflexivity || lra).
Qed.

(** [inbound] starts on the shell radius and ends inside it, uncorrected;
    [outbound] starts inside it and ends outside, corrected. *)
Lemma surface_tests_distance_before_integration_witness :
  (3.5 <= calculateDistance (Vector3.new 3.5 0 0) moonCenter
   /\ calculateDistance (Vector3.new 2.53 0 0) moonCenter < 3.5
   /\ useFrame pointerAway inbound [Vector3.new 3.5 0 0] =
      Some (mkFloatingObject 0 box (Some (Vector3.new 2.53 0 0))
              (Vector3.new (-0.97) 0 0) false,
            [Vector3.new 2.53 0 0]))
  /\ (calculateDistance (Vector3.new 3 0 0) moonCenter < 3.5
      /\ 3.5 <= calculateDistance (Vector3.new 4.9 0 0) moonCenter
      /\ useFrame pointerAway outbound [Vector3.new 3 0 0] =
         Some (mkFloatingObject 0 box (Some (Vector3.new 4.62 0 0))
                 (Vector3.new 1.52 0 0) false,
               [Vector3.new 4.62 0 0])).
Proof.
  split; (split; [| split]).
  - rewrite inbound_distance. lra.
  - rewrite inbound_after. lra.
  - rewrite (proj1 (surface_tests_distance_before_integration pointerAway
                      inbound [Vector3.new 3.5 0 0] (Vector3.new 3.5 0 0)
                      eq_refl ltac:(cbn; lia)))
      by (rewrite inbound_distance; lra).
    cbn [inbound index type velocity isHovered]. rewrite inbound_forces.
    replace (Vector3.add (Vector3.new 3.5 0 0) (Vector3.new (-0.97) 0 0))
      with (Vector3.new 2.53 0 0) by (unfold_vec; f_equal; lra).
    reflexivity.
  - rewrite outbound_distance. lra.
  - apply distanceTo_at_least; [lra |]. unfold_vec. lra.
  - rewrite (proj2 (surface_tests_distance_before_integration pointerAway
                      outbound [Vector3.new 3 0 0] (Vector3.new 3 0 0)
                      eq_refl ltac:(cbn; lia)))
      by (rewrite outbound_distance; lra).
    rewrite <- outbound_useFrame.
    rewrite (useFrame_surface pointerAway outbound _ (Vector3.new 3 0 0))
      by (reflexivity || (cbn; lia)).
    cbv zeta. rewrite outbound_distance.
    destruct (Rlt_dec 3 3.5); [reflexivity | lra].
Defined.

(** C1, as the code has it. The correction of lines 94-97 is applied
    exactly when the distance to the centre taken at the start of the
    callback, before the integration of line 91, is below [3.5]; what it
    corrects is the position after the integration. *)
Theorem surface_applied_by_distance_before_integration
    three (o : FloatingObject R) allObjects p :
  mesh o = Some p -> (index o < length allObjects)%nat ->
  let d := calculateDistance p moonCenter in
  let v := forces (index o) three p (velocity o) allObjects in
  let q := Vector3.add p v in
  let r := if Rlt_dec d 3.5 then surfaceCorrection q v else (q, v) in
  useFrame three o allObjects =
  Some (mkFloatingObject (index o) (type o) (Some (fst r)) (snd r)
          (isHovered o),
        <[index o := fst r]> allObjects).
Proof.
  intros Hm Hi d v q r.
  rewrite (useFrame_surface three o allObjects p Hm Hi).
  cbv zeta. fold d v q. subst r. unfold surfaceCorrection.
  destruct (Rlt_dec d 3.5); reflexivity.
Qed.

Lemma surface_applied_by_distance_before_integration_witness :
  useFrame pointerAway outbound [Vector3.new 3 0 0] =
  Some (mkFloatingObject 0 box
          (Some (fst (surfaceCorrection (Vector3.new 4.9 0 0)
                        (Vector3.new 1.9 0 0))))
          (snd (surfaceCorrection (Vector3.new 4.9 0 0) (Vector3.new 1.9 0 0)))
          false,
        [fst (surfaceCorrection (Vector3.new 4.9 0 0) (Vector3.new 1.9 0 0))]).
Proof.
  rewrite (surface_applied_by_distance_before_integration pointerAway outbound
             [Vector3.new 3 0 0] (Vector3.new 3 0 0) eq_refl ltac:(cbn; lia)).
  cbv zeta. rewrite outbound_distance.
  destruct (Rlt_dec 3 3.5) as [_ | Hge]; [| lra].
  cbn [outbound index type velocity isHovered]. rewrite outbound_forces.
  replace (Vector3.add (Vector3.new 3 0 0) (Vector3.new 1.9 0 0))
    with (Vector3.new 4.9 0 0) by (unfold_vec; f_equal; lra).
  reflexivity.
Defined.

(** C1, as stated, fails at [inbound]: the integration carries it to
    [(2.53, 0, 0)], at distance [2.53 < 3.5] from the centre, and the callback
    leaves position and velocity uncorrected, where the rule read on the
    integrated position would give [(2.724, 0, 0)] and [(-0.776, 0, 0)]. *)
Lemma surface_not_applied_by_distance_after_integration :
  Vector3.add (Vector3.new 3.5 0 0)
    (forces 0 pointerAway (Vector3.new 3.5 0 0) (Vector3.new (-1) 0 0)
       [Vector3.new 3.5 0 0]) = Vector3.new 2.53 0 0
  /\ calculateDistance (Vector3.new 2.53 0 0) moonCenter < 3.5
  /\ useFrame pointerAway inbound [Vector3.new 3.5 0 0] =
     Some (mkFloatingObject 0 box (Some (Vector3.new 2.53 0 0))
             (Vector3.new (-0.97) 0 0) false,
           [Vector3.new 2.53 0 0])
  /\ useFrame pointerAway inbound [Vector3.new 3.5 0 0] <>
     useFrame_as_specified pointerAway inbound [Vector3.new 3.5 0 0].
Proof.
  split; [| split; [| split]].
  - rewrite inbound_forces. unfold_vec. f_equal; lra.
  - rewrite inbound_after. lra.
  - apply inbound_useFrame.
  - rewrite inbound_useFrame, inbound_as_specified. intros E.
    apply (f_equal (fun r => match r with
                             | Some (o, _) => Vector3.x (velocity o)
                             | None => 0
                             end)) in E.
    cbn in E. lra.
Qed.

End SurfaceTrigger.

(* ================================================================== *)
(** ** Zero directions and the one-sided pull *)

Section Degenerate.
Local Open Scope R_scope.
Implicit Types (p q v M : Vector3 R) (d c : R) (three : Three R).

Lemma zero_direction_term p s :
  Vector3.multiplyScalar (Vector3.normalize (Vector3.sub p p)) s =
  Vector3.new 0 0 0.
Proof. rewrite sub_self, normalize_zero. apply multiplyScalar_zero. Qed.

Lemma repulsion_on_pointer p v : repulsion (calculateDistance p p) p p v = v.
Proof.
  unfold calculateDistance. rewrite distanceTo_self.
  rewrite repulsion_near by lra. rewrite zero_direction_term. apply add_zero.
Qed.

Lemma avoid_coincident index p i v : avoid index p p i v = v.
Proof.
  destruct (decide (i = index)) as [-> | Hi]; [apply avoid_self |].
  rewrite avoid_close; [| exact Hi |].
  - rewrite zero_direction_term. apply add_zero.
  - unfold calculateDistance. rewrite distanceTo_self. lra.
Qed.

(** C6. The direction of a zero vector is the zero vector: [length() || 1]
    divides by one. A body on the centre gets no pull, a body on the
    influence point no push, a body on another body no nudge, and the surface
    rule leaves a body on the centre there. In binary64 the same callback,
    run on a body that sits on the pointer and on its neighbour, and on a
    body that sits on the centre, the pointer and its neighbour at once,
    returns finite numbers only. *)
Theorem zero_direction_adds_nothing :
  (forall p, Vector3.normalize (Vector3.sub p p) = Vector3.new 0 0 0)
  /\ (forall v, gravity (calculateDistance moonCenter moonCenter)
                  moonCenter v = v)
  /\ (forall p v, repulsion (calculateDistance p p) p p v = v)
  /\ (forall index p i v, avoid index p p i v = v)
  /\ (forall d v, fst (surface d moonCenter v) = moonCenter)
  /\ Vector3.normalize (@moonCenter PrimFloat.float _) = moonCenter
  /\ isFiniteResult (useFrame pointerOnBody coincident [onPointer; onPointer])
     = true
  /\ isFiniteResult (useFrame pointerOnCentre centred [moonCenter; moonCenter])
     = true.
Proof.
  refine (conj _ (conj _ (conj _ (conj _ (conj _ (conj _ (conj _ _))))))).
  - intros p. rewrite sub_self. apply normalize_zero.
  - intros v. apply gravity_inside. unfold calculateDistance.
    rewrite distanceTo_self. lra.
  - apply repulsion_on_pointer.
  - apply avoid_coincident.
  - intros d v. destruct (Rlt_dec d 3.5) as [Hd | Hd].
    + rewrite surface_near by exact Hd. cbn [fst].
      change (@moonCenter R _) with (Vector3.new 0 0 0).
      rewrite normalize_zero, multiplyScalar_zero.
      unfold_vec. f_equal; lra.
    + rewrite surface_far by lra. reflexivity.
  - vm_compute. reflexivity.
  - vm_compute. reflexivity.
  - vm_compute. reflexivity.
Qed.

Lemma forces_alone index three p v allObjects :
  noOtherInfluence index three p allObjects ->
  forces index three p v allObjects =
  gravity (calculateDistance p moonCenter) p (damp v).
Proof.
  intros [Hm Ho]. unfold forces.
  rewrite repulsion_far by exact Hm.
  apply avoidance_apart. intros j q Hj Hne. apply (Ho j q Hj). lia.
Qed.

Lemma damp_zero : damp (Vector3.new 0 0 0) = Vector3.new 0 0 0.
Proof. unfold damp. apply multiplyScalar_zero. Qed.

Lemma zero_add v : Vector3.add (Vector3.new 0 0 0) v = v.
Proof. destruct v. unfold_vec. f_equal; lra. Qed.

Lemma multiplyScalar_twice v s c :
  Vector3.multiplyScalar (Vector3.multiplyScalar v s) c =
  Vector3.multiplyScalar v (s * c).
Proof. destruct v. unfold_vec. f_equal; lra. Qed.

Lemma length_sub_moonCenter p :
  Vector3.length (Vector3.sub moonCenter p) = calculateDistance p moonCenter.
Proof.
  destruct p as [x y z]. unfold_vec. f_equal. lra.
Qed.

(** C4. Outside the radius the forces add [normalize(center - position) *
    0.02] to the damped velocity; a body at rest under no other influence
    ends the frame moving towards the centre. At the radius and inside it
    nothing is added: under no other influence the forces leave the damped
    velocity, which the surface rule, always in reach there, scales by
    [0.8]. *)
Theorem attraction_is_one_sided three (o : FloatingObject R) allObjects p :
  mesh o = Some p -> (index o < length allObjects)%nat ->
  let d := calculateDistance p moonCenter in
  let M := mousePosition three in
  let direction := Vector3.normalize (Vector3.sub moonCenter p) in
  let v := velocity o in
  (3 < d ->
   forces (index o) three p v allObjects =
     avoidance (index o) p 0 allObjects
       (repulsion (calculateDistance p M) p M
          (Vector3.add (damp v) (Vector3.multiplyScalar direction 0.02)))
   /\ (noOtherInfluence (index o) three p allObjects ->
       v = Vector3.new 0 0 0 ->
       exists o' allObjects' c,
         useFrame three o allObjects = Some (o', allObjects')
         /\ 0 < c
         /\ velocity o' = Vector3.multiplyScalar direction c
         /\ Vector3.length (velocity o') = c))
  /\ (d <= 3 ->
      forces (index o) three p v allObjects =
        avoidance (index o) p 0 allObjects
          (repulsion (calculateDistance p M) p M (damp v))
      /\ (noOtherInfluence (index o) three p allObjects ->
          forces (index o) three p v allObjects = damp v
          /\ exists o' allObjects',
               useFrame three o allObjects = Some (o', allObjects')
               /\ velocity o' = Vector3.multiplyScalar (damp v) 0.8)).
Proof.
  intros Hm Hi d M direction v. split.
  - intros Hd. split.
    + unfold forces. fold d. rewrite gravity_outside by exact Hd. reflexivity.
    + intros Halone Hv.
      assert (Hf : forces (index o) three p v allObjects =
                   Vector3.multiplyScalar direction 0.02).
      { rewrite forces_alone by exact Halone. fold d.
        rewrite gravity_outside by exact Hd.
        rewrite Hv, damp_zero, zero_add. reflexivity. }
      assert (Hdir : Vector3.length direction = 1).
      { apply length_normalize. rewrite length_sub_moonCenter. fold d. lra. }
      pose proof (useFrame_surface three o allObjects p Hm Hi) as E.
      cbv zeta in E. fold d v in E. rewrite Hf in E.
      destruct (Rlt_dec d 3.5).
      * eexists _, _, (0.02 * 0.8). split; [exact E |]. cbn [velocity].
        split; [lra |]. rewrite multiplyScalar_twice. split; [reflexivity |].
        rewrite length_multiplyScalar by lra. rewrite Hdir. ring.
      * eexists _, _, 0.02. split; [exact E |]. cbn [velocity].
        split; [lra |]. split; [reflexivity |].
        rewrite length_multiplyScalar by lra. rewrite Hdir. ring.
  - intros Hd. split.
    + unfold forces. fold d. rewrite gravity_inside by exact Hd. reflexivity.
    + intros Halone.
      assert (Hf : forces (index o) three p v allObjects = damp v).
      { rewrite forces_alone by exact Halone. fold d.
        apply gravity_inside. exact Hd. }
      split; [exact Hf |].
      pose proof (useFrame_surface three o allObjects p Hm Hi) as E.
      cbv zeta in E. fold d v in E. rewrite Hf in E.
      destruct (Rlt_dec d 3.5); [| lra].
      eexists _, _. split; [exact E | reflexivity].
Qed.

End Degenerate.

Section EndToEnd.
Local Open Scope R_scope.
Implicit Types (p q v M : Vector3 R) (d c : R) (three : Three R).

Lemma alone_in_registry three p c :
  p = Vector3.new c 0 0 -> noOtherInfluence 0 pointerAway p [p].
Proof.
  intros ->. split; [apply pointerAway_far |].
  intros [| j] q Hj Hne; [congruence | discriminate].
Qed.

Lemma attraction_is_one_sided_witness :
  (exists o' allObjects' c,
     useFrame pointerAway resting [Vector3.new 10 0 0] = Some (o', allObjects')
     /\ 0 < c
     /\ velocity o' =
        Vector3.multiplyScalar
          (Vector3.normalize (Vector3.sub moonCenter (Vector3.new 10 0 0))) c
     /\ Vector3.length (velocity o') = c)
  /\ forces 0 pointerAway (Vector3.new 3 0 0) (Vector3.new 2 0 0)
       [Vector3.new 3 0 0] = damp (Vector3.new 2 0 0).
Proof.
  assert (H10 : calculateDistance (Vector3.new 10 0 0) moonCenter = 10)
    by (apply distanceTo_of_square; [lra | unfold_vec; lra]).
  split.
  - apply (proj1 (attraction_is_one_sided pointerAway resting
                    [Vector3.new 10 0 0] (Vector3.new 10 0 0)
                    eq_refl ltac:(cbn; lia))).
    + rewrite H10. lra.
    + apply (alone_in_registry pointerAway _ 10). reflexivity.
    + reflexivity.
  - apply (proj2 (attraction_is_one_sided pointerAway outbound
                    [Vector3.new 3 0 0] (Vector3.new 3 0 0)
                    eq_refl ltac:(cbn; lia))).
    + rewrite outbound_distance. lra.
    + apply (alone_in_registry pointerAway _ 3). reflexivity.
Defined.

(** A body at rest, outside the shell and under no other influence: one
    callback moves it by the attraction term and nothing else. *)
Lemma useFrame_pulled three (o : FloatingObject R) allObjects p :
  mesh o = Some p -> (index o < length allObjects)%nat ->
  velocity o = Vector3.new 0 0 0 ->
  3.5 <= calculateDistance p moonCenter ->
  noOtherInfluence (index o) three p allObjects ->
  useFrame three o allObjects =
  Some (mkFloatingObject (index o) (type o) (Some (Vector3.add p (pull p)))
          (pull p) (isHovered o),
        <[index o := Vector3.add p (pull p)]> allObjects).
Proof.
  intros Hm Hi Hv Hd Halone.
  rewrite (useFrame_surface three o allObjects p Hm Hi). cbv zeta.
  destruct (Rlt_dec (calculateDistance p moonCenter) 3.5); [lra |].
  rewrite forces_alone by exact Halone.
  rewrite gravity_outside by lra.
  rewrite Hv, damp_zero, zero_add. reflexivity.
Qed.

Lemma towards_centre c : 0 < c -> (0 - c) * (1 / c) = -1.
Proof. intros Hc. field. lra. Qed.

Lemma pull_x c : 0 < c -> pull (Vector3.new c 0 0) = Vector3.new (-0.02) 0 0.
Proof.
  intros Hc. unfold pull.
  rewrite (normalize_of_length _ c);
    [| exact Hc | apply length_of_square; [lra | unfold_vec; lra]].
  unfold_vec. rewrite towards_centre by exact Hc. f_equal; lra.
Qed.

Lemma pull_y c : 0 < c -> pull (Vector3.new 0 c 0) = Vector3.new 0 (-0.02) 0.
Proof.
  intros Hc. unfold pull.
  rewrite (normalize_of_length _ c);
    [| exact Hc | apply length_of_square; [lra | unfold_vec; lra]].
  unfold_vec. rewrite towards_centre by exact Hc. f_equal; lra.
Qed.

Lemma pull_z c : 0 < c -> pull (Vector3.new 0 0 c) = Vector3.new 0 0 (-0.02).
Proof.
  intros Hc. unfold pull.
  rewrite (normalize_of_length _ c);
    [| exact Hc | apply length_of_square; [lra | unfold_vec; lra]].
  unfold_vec. rewrite towards_centre by exact Hc. f_equal; lra.
Qed.

Ltac far_apart :=
  apply distanceTo_at_least; [lra | unfold_vec; nra].

Ltac each_slot j Hj :=
  repeat (destruct j as [| j]; cbn in Hj;
          [apply (inj Some) in Hj; subst; try congruence; try far_apart |]);
  try (destruct j; discriminate).

(** C2. Three bodies at rest on the three axes, ten units out, the pointer
    more than four units from each: one frame moves each by
    [normalize(center - position) * 0.02], that is to [9.98] on its axis, and
    leaves it with that velocity. *)
Theorem three_bodies_one_frame three :
  Forall (fun p => 4 < calculateDistance p (mousePosition three)) threeBodies ->
  frame three (mount threeBodies) threeBodies =
    Some (imap (fun i p => mkFloatingObject i (typeOf i)
                             (Some (Vector3.add p (pull p))) (pull p) false)
            threeBodies,
          map (fun p => Vector3.add p (pull p)) threeBodies)
  /\ map (fun p => Vector3.add p (pull p)) threeBodies =
     [Vector3.new 9.98 0 0; Vector3.new 0 9.98 0; Vector3.new 0 0 9.98].
Proof.
  intros Hfar. unfold threeBodies in *.
  apply Forall_cons in Hfar as [Hm0 Hfar].
  apply Forall_cons in Hfar as [Hm1 Hfar].
  apply Forall_cons in Hfar as [Hm2 _].
  assert (E0 : Vector3.add (Vector3.new 10 0 0) (pull (Vector3.new 10 0 0))
               = Vector3.new 9.98 0 0)
    by (rewrite pull_x by lra; unfold_vec; f_equal; lra).
  assert (E1 : Vector3.add (Vector3.new 0 10 0) (pull (Vector3.new 0 10 0))
               = Vector3.new 0 9.98 0)
    by (rewrite pull_y by lra; unfold_vec; f_equal; lra).
  assert (E2 : Vector3.add (Vector3.new 0 0 10) (pull (Vector3.new 0 0 10))
               = Vector3.new 0 0 9.98)
    by (rewrite pull_z by lra; unfold_vec; f_equal; lra).
  split; [| cbn [map]; rewrite E0, E1, E2; reflexivity].
  cbn [mount imap map frame]. unfold compose.
  rewrite (useFrame_pulled three _ _ (Vector3.new 10 0 0));
    [| reflexivity | cbn; lia | reflexivity | far_apart |].
  2:{ split; [lra |]. intros j q Hj Hne. cbn [index] in Hne. each_slot j Hj. }
  cbn [mbind option_bind index type isHovered list_insert insert]. rewrite E0.
  rewrite (useFrame_pulled three _ _ (Vector3.new 0 10 0));
    [| reflexivity | cbn; lia | reflexivity | far_apart |].
  2:{ split; [lra |]. intros j q Hj Hne. cbn [index] in Hne. each_slot j Hj. }
  cbn [mbind option_bind index type isHovered list_insert insert]. rewrite E1.
  rewrite (useFrame_pulled three _ _ (Vector3.new 0 0 10));
    [| reflexivity | cbn; lia | reflexivity | far_apart |].
  2:{ split; [lra |]. intros j q Hj Hne. cbn [index] in Hne. each_slot j Hj. }
  cbn [mbind option_bind index type isHovered list_insert insert]. rewrite E2.
  reflexivity.
Qed.

Lemma three_bodies_one_frame_witness :
  Forall (fun p => 4 < calculateDistance p (mousePosition pointerAway))
    threeBodies
  /\ frame pointerAway (mount threeBodies) threeBodies =
     Some (imap (fun i p => mkFloatingObject i (typeOf i)
                              (Some (Vector3.add p (pull p))) (pull p) false)
             threeBodies,
           [Vector3.new 9.98 0 0; Vector3.new 0 9.98 0; Vector3.new 0 0 9.98]).
Proof.
  assert (Hfar : Forall
            (fun p => 4 < calculateDistance p (mousePosition pointerAway))
            threeBodies).
  { repeat constructor;
      (apply Rlt_le_trans with 5; [lra |]);
      apply distanceTo_at_least; try lra;
      cbv [pointerAway mousePosition mouse_x mouse_y viewport_width
           viewport_height]; unfold_vec; nra. }
  split; [exact Hfar |].
  destruct (three_bodies_one_frame pointerAway Hfar) as [Hframe Hmoved].
  rewrite Hframe, Hmoved. reflexivity.
Defined.

End EndToEnd.

Section Repulsion.
Local Open Scope R_scope.
Implicit Types (p q v M : Vector3 R) (d c : R) (three : Three R).

(** C5. The callback of a mounted object with a registry slot, at distance
    [d] from the influence point [M]. For [0 < d < 4] the velocity that
    goes into the [forEach], the integration and the surface rule is the
    damped and attracted velocity plus a vector [f] of length
    [0.3 * (1 - d/4)] that is a positive multiple of [position - M]. From
    [d = 4] on it is the damped and attracted velocity with nothing added. *)
Theorem repulsion_falloff three (o : FloatingObject R) allObjects p :
  mesh o = Some p -> (index o < length allObjects)%nat ->
  let M := mousePosition three in
  let d := calculateDistance p M in
  let distanceToMoon := calculateDistance p moonCenter in
  let g := gravity distanceToMoon p (damp (velocity o)) in
  let callback v :=
    let r := surface distanceToMoon (Vector3.add p v) v in
    Some (mkFloatingObject (index o) (type o) (Some (fst r)) (snd r)
            (isHovered o),
          <[index o := fst r]> allObjects) in
  (0 < d < 4 ->
   exists f,
     Vector3.length f = 0.3 * (1 - d / 4)
     /\ 0 < 0.3 * (1 - d / 4) / d
     /\ f = Vector3.multiplyScalar (Vector3.sub p M) (0.3 * (1 - d / 4) / d)
     /\ useFrame three o allObjects =
        callback (avoidance (index o) p 0 allObjects (Vector3.add g f)))
  /\ (4 <= d ->
      useFrame three o allObjects =
      callback (avoidance (index o) p 0 allObjects g)).
Proof.
  intros Hm Hi M d distanceToMoon g callback.
  pose proof (useFrame_mounted three o allObjects p Hm Hi) as Eu.
  cbv zeta in Eu. unfold forces in Eu. fold M d distanceToMoon g in Eu.
  split.
  - intros [Hd0 Hd4].
    assert (Hl : Vector3.length (Vector3.sub p M) <> 0)
      by (apply Rgt_not_eq; exact Hd0).
    exists (Vector3.multiplyScalar (Vector3.normalize (Vector3.sub p M))
              (0.3 * (1 - d / 4))).
    split; [| split; [| split]].
    + rewrite length_multiplyScalar by lra.
      rewrite length_normalize by exact Hl. ring.
    + apply Rdiv_lt_0_compat; lra.
    + apply scaled_normalize. exact Hl.
    + rewrite Eu, repulsion_near by exact Hd4. reflexivity.
  - intros Hd. rewrite Eu, repulsion_far by exact Hd. reflexivity.
Qed.

(** [pushed] is two units from the pointer and six from the centre: the
    push is [0.3 * (1 - 2/4) = 0.15] away from the pointer, the pull
    [0.02] towards the centre, and the callback stores their sum. *)
Lemma repulsion_falloff_witness :
  0 < calculateDistance (Vector3.new 6 0 0) (mousePosition pointerNear) < 4
  /\ exists f,
       Vector3.length f = 0.3 * (1 - 2 / 4)
       /\ f = Vector3.new 0.15 0 0
       /\ useFrame pointerNear pushed [Vector3.new 6 0 0] =
          Some (mkFloatingObject 0 box (Some (Vector3.new 6.13 0 0))
                  (Vector3.new 0.13 0 0) false,
                [Vector3.new 6.13 0 0]).
Proof.
  assert (Hd : calculateDistance (Vector3.new 6 0 0)
                 (mousePosition pointerNear) = 2).
  { apply distanceTo_of_square; [lra |].
    cbv [pointerNear mousePosition mouse_x mouse_y viewport_width
         viewport_height].
    unfold_vec. lra. }
  assert (Hmoon : calculateDistance (Vector3.new 6 0 0) moonCenter = 6)
    by (apply distanceTo_of_square; [lra | unfold_vec; lra]).
  split; [rewrite Hd; lra |].
  destruct (proj1 (repulsion_falloff pointerNear pushed [Vector3.new 6 0 0]
                     (Vector3.new 6 0 0) eq_refl ltac:(cbn; lia)))
    as (f & Hlen & _ & Hf & Hu).
  { rewrite Hd. lra. }
  rewrite Hd in Hlen, Hf.
  assert (Ef : f = Vector3.new 0.15 0 0).
  { rewrite Hf.
    cbv [pointerNear mousePosition mouse_x mouse_y viewport_width
         viewport_height].
    unfold_vec. f_equal; lra. }
  exists f. split; [exact Hlen |]. split; [exact Ef |].
  rewrite Hu, Ef, Hmoon. cbn [pushed index type velocity isHovered avoidance].
  rewrite avoid_self, gravity_outside, damp_zero, zero_add by lra.
  fold (pull (Vector3.new 6 0 0)). rewrite pull_x by lra.
  replace (Vector3.add (Vector3.new (-0.02) 0 0) (Vector3.new 0.15 0 0))
    with (Vector3.new 0.13 0 0) by (unfold_vec; f_equal; lra).
  rewrite surface_far by lra. cbn [fst snd].
  replace (Vector3.add (Vector3.new 6 0 0) (Vector3.new 0.13 0 0))
    with (Vector3.new 6.13 0 0) by (unfold_vec; f_equal; lra).
  reflexivity.
Defined.

End Repulsion.

(* ================================================================== *)
(** ** The order of the callbacks within a frame, for any numbers *)

Section Order.
Context {T : Type} `{Number T}.
Local Open Scope num_scope.
Implicit Types (o : FloatingObject T) (three : Three T) (p q r : Vector3 T).

Lemma forces_beforeAvoidance index three p v (allObjects : list (Vector3 T)) :
  forces index three p v allObjects =
  avoidance index p 0 allObjects (beforeAvoidance three p v).
Proof. reflexivity. Qed.

(** C3. The callbacks of a frame run in index order on the one registry.
    With bodies 0 and 1 within the spacing at the start of the frame, the
    forces on body 0 carry the nudge away from [r1], the position body 1
    committed in the frame before; the forces on body 1 are computed with
    slot 0 already holding [q0], the position body 0 has just committed, and
    its nudge, if [q0] is still within the spacing, points away from [q0]. *)
Theorem avoidance_follows_update_order
    three o0 o1 (rest : list (FloatingObject T)) p0 p1 r0 r1
    (regs : list (Vector3 T)) :
  index o0 = 0%nat -> index o1 = 1%nat ->
  mesh o0 = Some p0 -> mesh o1 = Some p1 ->
  (calculateDistance p0 r1 <? OBJECT_SPACING) = true ->
  let v0 := forces 0 three p0 (velocity o0) (r0 :: r1 :: regs) in
  let s0 := surface (calculateDistance p0 moonCenter) (Vector3.add p0 v0) v0 in
  let q0 := fst s0 in
  let v1 := forces 1 three p1 (velocity o1) (q0 :: r1 :: regs) in
  let s1 := surface (calculateDistance p1 moonCenter) (Vector3.add p1 v1) v1 in
  let q1 := fst s1 in
  v0 = avoidance 0 p0 2 regs
         (Vector3.add (beforeAvoidance three p0 (velocity o0))
            (Vector3.multiplyScalar (Vector3.normalize (Vector3.sub p0 r1))
               (dec 2 100)))
  /\ v1 = avoidance 1 p1 2 regs
            (if calculateDistance p1 q0 <? OBJECT_SPACING then
               Vector3.add (beforeAvoidance three p1 (velocity o1))
                 (Vector3.multiplyScalar
                    (Vector3.normalize (Vector3.sub p1 q0)) (dec 2 100))
             else beforeAvoidance three p1 (velocity o1))
  /\ frame three (o0 :: o1 :: rest) (r0 :: r1 :: regs) =
     '(rest', allObjects) ← frame three rest (q0 :: q1 :: regs);
     Some (mkFloatingObject 0 (type o0) (Some q0) (snd s0) (isHovered o0)
           :: mkFloatingObject 1 (type o1) (Some q1) (snd s1) (isHovered o1)
           :: rest',
           allObjects).
Proof.
  intros Hi0 Hi1 Hm0 Hm1 Hclose v0 s0 q0 v1 s1 q1.
  refine (conj _ (conj _ _)).
  - subst v0. rewrite forces_beforeAvoidance. cbn [avoidance].
    unfold avoid at 2 1.
    destruct (decide (0%nat <> 0%nat)) as [Hne | _]; [congruence |].
    destruct (decide (1%nat <> 0%nat)) as [_ | He]; [| exfalso; lia].
    rewrite Hclose. reflexivity.
  - subst v1. rewrite forces_beforeAvoidance. cbn [avoidance].
    unfold avoid at 2 1.
    destruct (decide (0%nat <> 1%nat)) as [_ | He]; [| exfalso; lia].
    destruct (decide (1%nat <> 1%nat)) as [Hne | _]; [congruence |].
    destruct (calculateDistance p1 q0 <? OBJECT_SPACING); reflexivity.
  - cbn [frame].
    rewrite (useFrame_mounted three o0 (r0 :: r1 :: regs) p0 Hm0)
      by (rewrite Hi0; cbn; lia).
    cbv zeta. rewrite Hi0. fold v0. fold s0. fold q0.
    cbn [mbind option_bind].
    change (<[0%nat:=q0]> (r0 :: r1 :: regs)) with (q0 :: r1 :: regs).
    rewrite (useFrame_mounted three o1 (q0 :: r1 :: regs) p1 Hm1)
      by (rewrite Hi1; cbn; lia).
    cbv zeta. rewrite Hi1. fold v1. fold s1. fold q1.
    cbn [mbind option_bind].
    change (<[1%nat:=q1]> (q0 :: r1 :: regs)) with (q0 :: q1 :: regs).
    destruct (frame three rest (q0 :: q1 :: regs)) as [[rest' reg'] |];
      reflexivity.
Qed.

End Order.

Section OrderRun.

(** [leader] and [follower] start [0.57] apart. The leader is nudged away
    and commits a position more than [0.6] from the follower, which then
    finds nobody within the spacing: its forces are those before the
    [forEach]. Against the registry of the frame's start it would have been
    nudged too. *)
Lemma avoidance_follows_update_order_witness :
  let p0 := Vector3.new (ofZ 5) (ofZ 0) (ofZ 0) in
  let p1 := Vector3.new (dec 557 100) (ofZ 0) (ofZ 0) in
  (calculateDistance p0 p1 <? OBJECT_SPACING)%num = true
  /\ exists q0 w0 q1 w1,
       frame pointerFar [leader; follower] [p0; p1] =
         Some ([mkFloatingObject 0 box (Some q0) w0 false;
                mkFloatingObject 1 sphere (Some q1) w1 false], [q0; q1])
       /\ (calculateDistance p1 q0 <? OBJECT_SPACING)%num = false
       /\ forces 1 pointerFar p1 moonCenter [q0; p1] =
          beforeAvoidance pointerFar p1 moonCenter
       /\ forces 1 pointerFar p1 moonCenter [p0; p1] <>
          beforeAvoidance pointerFar p1 moonCenter.
Proof.
  intros p0 p1.
  assert (Hclose : (calculateDistance p0 p1 <? OBJECT_SPACING)%num = true)
    by (vm_compute; reflexivity).
  split; [exact Hclose |].
  destruct (avoidance_follows_update_order pointerFar leader follower []
              p0 p1 p0 p1 [] eq_refl eq_refl eq_refl eq_refl Hclose)
    as (_ & Hv1 & Hframe).
  eexists _, _, _, _. split; [exact Hframe |].
  split; [vm_compute; reflexivity |].
  split; [vm_compute; reflexivity |].
  vm_compute. intros E. discriminate E.
Defined.

(** Pointer events before and between two frames, and a flag set from the
    start, against the two frames alone. *)
Lemma hover_does_not_move_witness :
  let p0 := Vector3.new (ofZ 5) (ofZ 0) (ofZ 0) in
  let p1 := Vector3.new (dec 557 100) (ofZ 0) (ofZ 0) in
  motionState <$>
    run [PointerOver 0; Frame pointerFar; PointerOut 0; PointerOver 1;
         Frame pointerFar]
      (mkSceneState [leader; follower] [p0; p1]) =
  motionState <$>
    run [Frame pointerFar; Frame pointerFar]
      (mkSceneState [leader; setIsHovered true follower] [p0; p1]).
Proof.
  intros p0 p1. apply hover_does_not_move; reflexivity.
Defined.

End OrderRun.

(* ================================================================== *)
(** ** The initial layout *)

Section LayoutClaims.
Local Open Scope R_scope.
Variable random : nat -> R.

Lemma pushObject_objectAt layer m i ps k :
  pushObject random layer m i (ps, k) =
  (ps ++ [objectAt random layer m i k], S (S k)).
Proof. reflexivity. Qed.

Lemma pushObject_fold layer m : forall n a ps k,
  fold_left (fun st i => pushObject random layer m i st) (seq a n) (ps, k) =
  (ps ++ map (fun j => objectAt random layer m (a + j) (k + 2 * j)) (seq 0 n),
   (k + 2 * n)%nat).
Proof.
  induction n as [| n IH]; intros a ps k.
  - cbn. rewrite app_nil_r. f_equal. lia.
  - cbn [seq fold_left]. rewrite pushObject_objectAt, IH.
    rewrite <- app_assoc. cbn [app map]. f_equal; [| lia].
    f_equal. f_equal.
    + f_equal; lia.
    + rewrite <- seq_shift, map_map. apply map_ext. intros j. f_equal; lia.
Qed.

Lemma pushLayer_objectAt layer ps k :
  pushLayer random layer (ps, k) =
  (ps ++ map (fun j => objectAt random layer 16 j (k + 2 * j)) (seq 0 16),
   (k + 32)%nat).
Proof.
  unfold pushLayer. change (totalObjects / 3)%nat with 16%nat.
  rewrite pushObject_fold. reflexivity.
Qed.

(** The layout in closed form: entry [n] is object [n mod 16] of layer
    [n / 16], drawn from the values [2n] and [2n + 1]. *)
Lemma initialPositions_closed :
  initialPositions random =
  map (fun n => objectAt random (n / 16) 16 (n mod 16) (2 * n)) (seq 0 48).
Proof.
  unfold initialPositions.
  change (seq 0 3) with [0%nat; 1%nat; 2%nat]. cbn [fold_left].
  rewrite !pushLayer_objectAt. cbn [fst app].
  replace (seq 0 48) with
    (seq 0 16 ++ map (Nat.add 16) (seq 0 16) ++ map (Nat.add 32) (seq 0 16))
    by reflexivity.
  rewrite !map_app, !map_map, <- app_assoc.
  apply (f_equal2 (@app _)); [| apply (f_equal2 (@app _))];
    apply map_ext_in; intros j Hj%in_seq.
  - rewrite Nat.div_small, Nat.mod_small by lia. f_equal; lia.
  - replace ((16 + j) / 16)%nat with 1%nat
      by (apply Nat.div_unique with j; lia).
    replace ((16 + j) mod 16)%nat with j
      by (apply Nat.mod_unique with 1%nat; lia).
    f_equal; lia.
  - replace ((32 + j) / 16)%nat with 2%nat
      by (apply Nat.div_unique with j; lia).
    replace ((32 + j) mod 16)%nat with j
      by (apply Nat.mod_unique with 2%nat; lia).
    f_equal; lia.
Qed.

Lemma lookup_map_seq {A} (f : nat -> A) m n :
  (n < m)%nat -> map f (seq 0 m) !! n = Some (f n).
Proof.
  intros Hn. change (map f (seq 0 m)) with (f <$> seq 0 m).
  rewrite list_lookup_fmap, lookup_seq_lt by exact Hn. reflexivity.
Qed.

Lemma ring_radius a r :
  0 <= r ->
  sqrt (cos a * r * (cos a * r) + sin a * r * (sin a * r)) = r.
Proof.
  intros Hr. pose proof (sin2_cos2 a) as E. unfold Rsqr in E.
  replace (cos a * r * (cos a * r) + sin a * r * (sin a * r))
    with (r * r * (sin a * sin a + cos a * cos a)) by ring.
  rewrite E, Rmult_1_r. apply sqrt_square. exact Hr.
Qed.

Lemma initialPositions_length : length (initialPositions random) = 48%nat.
Proof.
  rewrite initialPositions_closed, length_map, length_seq. reflexivity.
Qed.

End LayoutClaims.

Section LayoutTheorem.
Local Open Scope R_scope.

(** C8. For 48 objects in 3 layers the layout has 48 entries whatever
    [Math.random] returns. With the random values in [[0, 1)], entry [n]
    lies in layer [n / 16]: its distance from the vertical axis is
    [5 + 2 * random (2n)], between 5 and 7; its height is within 2 of
    [1.5 * (n / 16)]; its coordinates are bounded. *)
Theorem initial_layout_48 (random : nat -> R) :
  length (initialPositions random) = 48%nat
  /\ (forall random' : nat -> R,
        length (initialPositions random') = length (initialPositions random))
  /\ ((forall k, 0 <= random k < 1) ->
      forall n p, initialPositions random !! n = Some p ->
        let layer := (n / 16)%nat in
        let axisDistance :=
          sqrt (Vector3.x p * Vector3.x p + Vector3.z p * Vector3.z p) in
        axisDistance = 5 + random (2 * n)%nat * 2
        /\ 5 <= axisDistance < 7
        /\ Vector3.y p = (random (S (2 * n)) - 0.5) * 4 + INR layer * 1.5
        /\ Rabs (Vector3.y p - INR layer * 1.5) <= 2
        /\ Rabs (Vector3.x p) < 7 /\ Rabs (Vector3.z p) < 7).
Proof.
  split; [apply initialPositions_length |].
  split; [intros random'; rewrite !initialPositions_length; reflexivity |].
  intros Hrange n p Hn layer axisDistance.
  assert (Hlt : (n < 48)%nat).
  { apply lookup_lt_Some in Hn. rewrite initialPositions_length in Hn.
    exact Hn. }
  rewrite initialPositions_closed, lookup_map_seq in Hn by exact Hlt.
  apply (inj Some) in Hn. subst p axisDistance layer.
  unfold objectAt. cbn [Vector3.x Vector3.y Vector3.z].
  set (angle := INR (n mod 16) / INR 16 * PI * 2).
  pose proof (Hrange (2 * n)%nat) as Hr.
  pose proof (Hrange (S (2 * n))) as Hy.
  pose proof (COS_bound angle) as [Hc1 Hc2].
  pose proof (SIN_bound angle) as [Hs1 Hs2].
  rewrite ring_radius by lra.
  refine (conj eq_refl (conj _ (conj eq_refl (conj _ (conj _ _))))).
  - lra.
  - apply Rabs_le. lra.
  - apply Rabs_def1; nra.
  - apply Rabs_def1; nra.
Qed.

Lemma initial_layout_48_witness :
  let p := objectAt (fun _ => 0.5) 1 16 1 34 in
  sqrt (Vector3.x p * Vector3.x p + Vector3.z p * Vector3.z p) = 5 + 0.5 * 2
  /\ Rabs (Vector3.y p - INR 1 * 1.5) <= 2.
Proof.
  intros p.
  destruct (proj2 (proj2 (initial_layout_48 (fun _ => 0.5)))
              ltac:(intros k; lra) 17%nat p) as (Hd & _ & _ & Hy & _).
  - rewrite initialPositions_closed. reflexivity.
  - split; [exact Hd | exact Hy].
Defined.

End LayoutTheorem.

(* ================================================================== *)
(** ** The registry under the callbacks, for any numbers *)

Section Registry.
Context {T : Type} `{Number T}.
Implicit Types (o : FloatingObject T) (three : Three T)
  (reg : list (Vector3 T)) (os : list (FloatingObject T)).

Lemma useFrame_Some_inv three o reg o' reg' :
  useFrame three o reg = Some (o', reg') ->
  (mesh o = None /\ o' = o /\ reg' = reg)
  \/ (exists q w,
        is_Some (mesh o) /\ (index o < length reg)%nat
        /\ o' = mkFloatingObject (index o) (type o) (Some q) w (isHovered o)
        /\ reg' = <[index o := q]> reg).
Proof.
  unfold useFrame. destruct (mesh o) as [p |] eqn:Hm.
  - destruct (surface _ _ _) as [q w].
    destruct (reg !! index o) as [r |] eqn:Hl; [| discriminate].
    intros E. apply (inj Some), pair_equal_spec in E. destruct E as [<- <-].
    right. exists q, w. split; [eexists; reflexivity |].
    split; [eapply lookup_lt_Some; exact Hl |]. split; reflexivity.
  - intros E. apply (inj Some), pair_equal_spec in E. destruct E as [<- <-].
    left. repeat split.
Qed.

Lemma useFrame_None three o reg :
  useFrame three o reg = None <->
  is_Some (mesh o) /\ (length reg <= index o)%nat.
Proof.
  unfold useFrame. destruct (mesh o) as [p |] eqn:Hm.
  - destruct (surface _ _ _) as [q w].
    destruct (reg !! index o) as [r |] eqn:Hl.
    + apply lookup_lt_Some in Hl. split; [discriminate |]. intros [_ Hge]. lia.
    + apply lookup_ge_None in Hl. split; [| reflexivity].
      intros _. split; [eexists; reflexivity | exact Hl].
  - split; [discriminate |]. intros [[p Hp] _]. discriminate.
Qed.

Lemma useFrame_length three o reg o' reg' :
  useFrame three o reg = Some (o', reg') -> length reg' = length reg.
Proof.
  intros E. destruct (useFrame_Some_inv _ _ _ _ _ E)
    as [(_ & _ & ->) | (q & w & _ & _ & _ & ->)];
    [reflexivity | apply length_insert].
Qed.

Lemma frame_cons three o os reg :
  frame three (o :: os) reg =
  '(o', reg1) ← useFrame three o reg;
  '(os', reg2) ← frame three os reg1;
  Some (o' :: os', reg2).
Proof. reflexivity. Qed.

(** X1. A frame raises the [TypeError] of line 100 exactly when one of its
    mounted objects has an index beyond the registry; the objects before
    it in the pass do not matter. *)
Theorem frame_TypeError three os : forall reg,
  frame three os reg = None <->
  Exists (fun o => is_Some (mesh o) /\ (length reg <= index o)%nat) os.
Proof.
  induction os as [| o os IH]; intros reg.
  - split; [discriminate | intros E; inversion E].
  - rewrite frame_cons, Exists_cons.
    destruct (useFrame three o reg) as [[o' reg1] |] eqn:Eu.
    + pose proof (useFrame_length _ _ _ _ _ Eu) as Hlen.
      assert (Hok : ~ (is_Some (mesh o) /\ (length reg <= index o)%nat)).
      { intros Hbad. apply (proj2 (useFrame_None three o reg)) in Hbad.
        congruence. }
      cbn [mbind option_bind]. specialize (IH reg1). rewrite Hlen in IH.
      destruct (frame three os reg1) as [[os' reg2] |]; cbn.
      * split; [discriminate |]. intros [Hbad | Hbad]; [contradiction |].
        apply IH in Hbad. discriminate.
      * split; [| reflexivity]. intros _. right. apply IH. reflexivity.
    + split; [| reflexivity]. intros _. left.
      exact (proj1 (useFrame_None three o reg) Eu).
Qed.

Lemma frame_Some_cons three o os reg os'' reg'' :
  frame three (o :: os) reg = Some (os'', reg'') ->
  exists o' reg1 os',
    useFrame three o reg = Some (o', reg1)
    /\ frame three os reg1 = Some (os', reg'')
    /\ os'' = o' :: os'.
Proof.
  rewrite frame_cons.
  destruct (useFrame three o reg) as [[o' reg1] |] eqn:Eu; [| discriminate].
  cbn [mbind option_bind].
  destruct (frame three os reg1) as [[os' reg2] |] eqn:Ef; [| discriminate].
  cbn. intros E. apply (inj Some), pair_equal_spec in E. destruct E as [<- <-].
  exists o', reg1, os'. auto.
Qed.

Lemma useFrame_other_slot three o reg o' reg' j :
  useFrame three o reg = Some (o', reg') ->
  (is_Some (mesh o) -> index o <> j) -> reg' !! j = reg !! j.
Proof.
  intros E Hj. destruct (useFrame_Some_inv _ _ _ _ _ E)
    as [(_ & _ & ->) | (q & w & Hm & _ & _ & ->)]; [reflexivity |].
  apply list_lookup_insert_ne. apply Hj. exact Hm.
Qed.

Lemma frame_length three os : forall reg os' reg',
  frame three os reg = Some (os', reg') -> length reg' = length reg.
Proof.
  induction os as [| o os IH]; intros reg os'' reg'' E.
  - cbn in E. apply (inj Some), pair_equal_spec in E. destruct E as [_ <-].
    reflexivity.
  - destruct (frame_Some_cons _ _ _ _ _ _ E) as (o' & reg1 & os' & Eu & Ef & _).
    rewrite (IH _ _ _ Ef). eapply useFrame_length. exact Eu.
Qed.

(** X2. A frame keeps the registry's length and writes only the slots of
    its mounted objects: a slot that is the index of none of them holds
    after the pass what it held before. *)
Theorem frame_writes_own_slots three os : forall reg os' reg',
  frame three os reg = Some (os', reg') ->
  length reg' = length reg
  /\ forall j, Forall (fun o => is_Some (mesh o) -> index o <> j) os ->
               reg' !! j = reg !! j.
Proof.
  induction os as [| o os IH]; intros reg os'' reg'' E.
  - cbn in E. apply (inj Some), pair_equal_spec in E. destruct E as [_ <-].
    split; [reflexivity | intros; reflexivity].
  - destruct (frame_Some_cons _ _ _ _ _ _ E) as (o' & reg1 & os' & Eu & Ef & _).
    destruct (IH _ _ _ Ef) as [Hlen Hslots]. split.
    + rewrite Hlen. eapply useFrame_length. exact Eu.
    + intros j Hall. apply Forall_cons in Hall as [Ho Hos].
      rewrite (Hslots j Hos). eapply useFrame_other_slot; eassumption.
Qed.

Lemma useFrame_props three o reg o' reg' :
  useFrame three o reg = Some (o', reg') ->
  index o' = index o /\ type o' = type o /\ isHovered o' = isHovered o
  /\ (is_Some (mesh o') <-> is_Some (mesh o)).
Proof.
  intros E. destruct (useFrame_Some_inv _ _ _ _ _ E)
    as [(_ & -> & _) | (q & w & Hm & _ & -> & _)].
  - repeat split; intros; assumption.
  - cbn. do 3 (split; [reflexivity |]).
    split; intros _; [exact Hm | eexists; reflexivity].
Qed.

(** X3. A frame leaves every object its index, its geometry type and its
    hover flag, mounts and unmounts nothing, and returns as many objects
    as it was given. *)
Theorem frame_keeps_props three os : forall reg os' reg',
  frame three os reg = Some (os', reg') ->
  map index os' = map index os
  /\ map type os' = map type os
  /\ map isHovered os' = map isHovered os
  /\ map (fun o => bool_decide (is_Some (mesh o))) os' =
     map (fun o => bool_decide (is_Some (mesh o))) os.
Proof.
  induction os as [| o os IH]; intros reg os'' reg'' E.
  - cbn in E. apply (inj Some), pair_equal_spec in E. destruct E as [<- _].
    repeat split.
  - destruct (frame_Some_cons _ _ _ _ _ _ E)
      as (o' & reg1 & os' & Eu & Ef & ->).
    destruct (IH _ _ _ Ef) as (Hi & Ht & Hh & Hm).
    destruct (useFrame_props _ _ _ _ _ Eu) as (Hio & Hto & Hho & Hmo).
    cbn [map]. rewrite Hi, Ht, Hh, Hm, Hio, Hto, Hho.
    rewrite (bool_decide_ext _ _ Hmo). repeat split.
Qed.

(** A pass over objects indexed [k, k+1, ...], all mounted, on a registry
    long enough: it goes through, each object ends at the position its slot
    holds, and the slots below [k] are left alone. *)
Lemma frame_indexed three : forall os k reg,
  (forall i o, os !! i = Some o -> index o = (k + i)%nat /\ is_Some (mesh o)) ->
  (k + length os <= length reg)%nat ->
  exists os' reg',
    frame three os reg = Some (os', reg')
    /\ length os' = length os /\ length reg' = length reg
    /\ (forall i o', os' !! i = Some o' ->
          index o' = (k + i)%nat /\ mesh o' = reg' !! (k + i)%nat)
    /\ (forall j, (j < k)%nat -> reg' !! j = reg !! j).
Proof.
  induction os as [| o os IH]; intros k reg Hidx Hlen.
  - exists [], reg. cbn. repeat split; intros; discriminate.
  - destruct (Hidx 0%nat o eq_refl) as [Hio [p Hp]].
    rewrite Nat.add_0_r in Hio. cbn [length] in Hlen.
    pose proof (useFrame_mounted three o reg p Hp ltac:(lia)) as Eu.
    cbv zeta in Eu. rewrite Hio in Eu.
    set (q := fst (surface _ _ _)) in Eu. set (w := snd (surface _ _ _)) in Eu.
    destruct (IH (S k) (<[k:=q]> reg)) as (os' & reg' & Ef & Hl1 & Hl2 & Hm & Hlow).
    { intros i o1 Ho1. destruct (Hidx (S i) o1 Ho1) as [Hi1 Hm1].
      split; [lia | exact Hm1]. }
    { rewrite length_insert. lia. }
    rewrite length_insert in Hl2.
    eexists (_ :: os'), reg'. rewrite frame_cons, Eu. cbn [mbind option_bind].
    rewrite Ef. cbn [mbind option_bind].
    split; [reflexivity |]. split; [cbn; lia |]. split; [exact Hl2 |]. split.
    + intros [| i] o' Ho'.
      * apply (inj Some) in Ho'. subst o'. cbn [index mesh].
        rewrite Nat.add_0_r. split; [reflexivity |].
        rewrite (Hlow k ltac:(lia)).
        symmetry. apply list_lookup_insert_eq. lia.
      * destruct (Hm i o' Ho') as [Hi' Hm']. split; [lia |].
        rewrite Hm'. f_equal. lia.
    + intros j Hj. rewrite (Hlow j ltac:(lia)).
      apply list_lookup_insert_ne. lia.
Qed.

Lemma wellMounted_mount reg : wellMounted (mkSceneState (mount reg) reg).
Proof.
  split; [apply length_imap |].
  intros i o Ho. cbn [objects objectPositions] in *. unfold mount in Ho.
  rewrite list_lookup_imap in Ho.
  destruct (reg !! i) as [p |]; [| discriminate].
  apply (inj Some) in Ho. subst o. split; reflexivity.
Qed.

Lemma wellMounted_setIsHovered h i (s : SceneState T) :
  wellMounted s ->
  wellMounted (mkSceneState (alter (setIsHovered h) i (objects s))
                 (objectPositions s)).
Proof.
  intros [Hlen Hslots]. split; cbn [objects objectPositions].
  - rewrite length_alter. exact Hlen.
  - intros j o Ho. destruct (decide (i = j)) as [-> | Hne].
    + rewrite list_lookup_alter_eq in Ho.
      destruct (objects s !! j) as [o0 |] eqn:Ho0; [| discriminate].
      apply (inj Some) in Ho. subst o. apply (Hslots j o0 Ho0).
    + rewrite list_lookup_alter_ne in Ho by exact Hne. apply (Hslots j o Ho).
Qed.

Lemma step_wellMounted e (s : SceneState T) :
  wellMounted s -> exists s', step e s = Some s' /\ wellMounted s'
                              /\ length (objectPositions s') =
                                 length (objectPositions s).
Proof.
  intros Hs. destruct e as [three | i | i].
  - destruct Hs as [Hlen Hslots].
    destruct (frame_indexed three (objects s) 0 (objectPositions s))
      as (os' & reg' & Ef & Hl1 & Hl2 & Hm & _).
    { intros i o Ho. destruct (Hslots i o Ho) as [Hi Hmesh].
      split; [exact Hi |]. rewrite Hmesh.
      apply lookup_lt_is_Some_2. rewrite <- Hlen.
      eapply lookup_lt_Some. exact Ho. }
    { cbn. lia. }
    exists (mkSceneState os' reg'). cbn [step]. rewrite Ef.
    split; [reflexivity |]. split; [| exact Hl2].
    split; cbn [objects objectPositions]; [lia | exact Hm].
  - eexists. split; [reflexivity |].
    split; [apply wellMounted_setIsHovered; exact Hs | reflexivity].
  - eexists. split; [reflexivity |].
    split; [apply wellMounted_setIsHovered; exact Hs | reflexivity].
Qed.

Lemma run_wellMounted es : forall s : SceneState T,
  wellMounted s -> exists s', run es s = Some s' /\ wellMounted s'
                              /\ length (objectPositions s') =
                                 length (objectPositions s).
Proof.
  induction es as [| e es IH]; intros s Hs.
  - exists s. split; [reflexivity |]. split; [exact Hs | reflexivity].
  - destruct (step_wellMounted e s Hs) as (s1 & E1 & Hs1 & Hl1).
    destruct (IH s1 Hs1) as (s2 & E2 & Hs2 & Hl2).
    exists s2. cbn [run]. rewrite E1. cbn [mbind option_bind].
    split; [exact E2 |]. split; [exact Hs2 | lia].
Qed.

(** X5. A scene mounted on any registry never raises the [TypeError] of
    line 100, whatever frames and pointer events follow; after each of them
    the registry has its first length, object [i] still has index [i], and
    slot [i] holds the position of object [i]'s mesh. *)
Theorem mounted_scene_runs (reg : list (Vector3 T)) (es : list (Event T)) :
  exists s',
    run es (mkSceneState (mount reg) reg) = Some s'
    /\ length (objectPositions s') = length reg
    /\ length (objects s') = length reg
    /\ forall i o, objects s' !! i = Some o ->
         index o = i /\ mesh o = objectPositions s' !! i.
Proof.
  destruct (run_wellMounted es _ (wellMounted_mount reg))
    as (s' & E & [Hlen Hslots] & Hl).
  exists s'. split; [exact E |]. split; [exact Hl |].
  split; [rewrite Hlen; exact Hl | exact Hslots].
Qed.

End Registry.

(* ================================================================== *)
(** ** Distances and speeds over the reals *)

Section RealBounds.
Local Open Scope R_scope.
Implicit Types (a b p q r v w M : Vector3 R) (d c : R) (three : Three R)
  (reg : list (Vector3 R)).

Lemma cauchy_schwarz (a1 a2 a3 b1 b2 b3 : R) :
  (a1 * b1 + a2 * b2 + a3 * b3) * (a1 * b1 + a2 * b2 + a3 * b3) <=
  (a1 * a1 + a2 * a2 + a3 * a3) * (b1 * b1 + b2 * b2 + b3 * b3).
Proof.
  pose proof (Rle_0_sqr (a1 * b2 - a2 * b1)) as H12.
  pose proof (Rle_0_sqr (a1 * b3 - a3 * b1)) as H13.
  pose proof (Rle_0_sqr (a2 * b3 - a3 * b2)) as H23.
  unfold Rsqr in *.
  replace ((a1 * a1 + a2 * a2 + a3 * a3) * (b1 * b1 + b2 * b2 + b3 * b3))
    with ((a1 * b1 + a2 * b2 + a3 * b3) * (a1 * b1 + a2 * b2 + a3 * b3)
          + ((a1 * b2 - a2 * b1) * (a1 * b2 - a2 * b1)
             + (a1 * b3 - a3 * b1) * (a1 * b3 - a3 * b1)
             + (a2 * b3 - a3 * b2) * (a2 * b3 - a3 * b2))) by ring.
  lra.
Qed.

Lemma length_add_le a b :
  Vector3.length (Vector3.add a b) <= Vector3.length a + Vector3.length b.
Proof.
  destruct a as [a1 a2 a3], b as [b1 b2 b3]. unfold_vec.
  set (A := a1 * a1 + a2 * a2 + a3 * a3).
  set (B := b1 * b1 + b2 * b2 + b3 * b3).
  set (C := a1 * b1 + a2 * b2 + a3 * b3).
  assert (HA : 0 <= A) by (apply sumsq_nonneg).
  assert (HB : 0 <= B) by (apply sumsq_nonneg).
  replace ((a1 + b1) * (a1 + b1) + (a2 + b2) * (a2 + b2)
           + (a3 + b3) * (a3 + b3)) with (A + B + 2 * C)
    by (unfold A, B, C; ring).
  assert (HC : C <= sqrt A * sqrt B).
  { rewrite <- sqrt_mult by assumption.
    apply Rle_trans with (Rabs C); [apply Rle_abs |].
    rewrite <- sqrt_Rsqr_abs. apply sqrt_le_1_alt. unfold Rsqr.
    apply cauchy_schwarz. }
  pose proof (sqrt_pos A) as HsA. pose proof (sqrt_pos B) as HsB.
  apply Rsqr_incr_0_var; [| lra].
  assert (Hs : 0 <= A + B + 2 * C).
  { replace (A + B + 2 * C)
      with ((a1 + b1) * (a1 + b1) + (a2 + b2) * (a2 + b2)
            + (a3 + b3) * (a3 + b3)) by (unfold A, B, C; ring).
    apply sumsq_nonneg. }
  rewrite Rsqr_sqrt by exact Hs. unfold Rsqr.
  pose proof (sqrt_sqrt A HA). pose proof (sqrt_sqrt B HB). nra.
Qed.

Lemma distanceTo_sym p q : calculateDistance p q = calculateDistance q p.
Proof.
  destruct p, q. unfold_vec. f_equal. ring.
Qed.

Lemma sub_zero_iff p q : Vector3.sub p q = Vector3.new 0 0 0 <-> p = q.
Proof.
  destruct p as [x y z], q as [x' y' z']. unfold_vec. split; intros E.
  - inversion E. f_equal; lra.
  - inversion E. f_equal; lra.
Qed.

(** X6. [calculateDistance] is a metric on positions: never negative, zero
    exactly between equal positions, symmetric, and no longer than a detour
    through a third position. *)
Theorem calculateDistance_metric p q r :
  0 <= calculateDistance p q
  /\ (calculateDistance p q = 0 <-> p = q)
  /\ calculateDistance p q = calculateDistance q p
  /\ calculateDistance p r <= calculateDistance p q + calculateDistance q r.
Proof.
  refine (conj _ (conj _ (conj _ _))).
  - unfold calculateDistance. rewrite distanceTo_length. apply length_nonneg.
  - unfold calculateDistance. rewrite distanceTo_length, length_zero_iff.
    apply sub_zero_iff.
  - apply distanceTo_sym.
  - unfold calculateDistance. rewrite !distanceTo_length.
    replace (Vector3.sub p r)
      with (Vector3.add (Vector3.sub p q) (Vector3.sub q r))
      by (destruct p, q, r; unfold_vec; f_equal; lra).
    apply length_add_le.
Qed.

Lemma length_normalize_le v : Vector3.length (Vector3.normalize v) <= 1.
Proof.
  destruct (Req_dec_T (Vector3.length v) 0) as [Hz | Hnz].
  - apply length_zero_iff in Hz. subst v. rewrite normalize_zero.
    replace (Vector3.length (Vector3.new 0 0 0)) with 0
      by (symmetry; apply length_zero_iff; reflexivity).
    lra.
  - rewrite length_normalize by exact Hnz. lra.
Qed.

Lemma length_direction_le v c :
  0 <= c -> Vector3.length (Vector3.multiplyScalar (Vector3.normalize v) c) <= c.
Proof.
  intros Hc. rewrite length_multiplyScalar by exact Hc.
  pose proof (length_normalize_le v). nra.
Qed.

Lemma length_push_le v u c :
  0 <= c ->
  Vector3.length
    (Vector3.add v (Vector3.multiplyScalar (Vector3.normalize u) c))
  <= Vector3.length v + c.
Proof.
  intros Hc. eapply Rle_trans; [apply length_add_le |].
  pose proof (length_direction_le u c Hc). lra.
Qed.

Lemma gravity_length_le d p v :
  Vector3.length (gravity d p v) <= Vector3.length v + 0.02.
Proof.
  destruct (Rlt_dec 3 d) as [Hd | Hd].
  - rewrite gravity_outside by exact Hd. apply length_push_le. lra.
  - rewrite gravity_inside by lra. lra.
Qed.

Lemma repulsion_length_le d p M v :
  0 <= d -> Vector3.length (repulsion d p M v) <= Vector3.length v + 0.3.
Proof.
  intros Hd0. destruct (Rlt_dec d 4) as [Hd | Hd].
  - rewrite repulsion_near by exact Hd.
    eapply Rle_trans; [apply length_push_le; lra | lra].
  - rewrite repulsion_far by lra. lra.
Qed.

Lemma avoid_length_le index p q i v :
  Vector3.length (avoid index p q i v) <= Vector3.length v + 0.02.
Proof.
  destruct (decide (i = index)) as [-> | Hi]; [rewrite avoid_self; lra |].
  destruct (Rlt_dec (calculateDistance p q) 0.6) as [Hd | Hd].
  - rewrite avoid_close by assumption. apply length_push_le. lra.
  - rewrite avoid_apart by lra. lra.
Qed.

Lemma avoidance_length_le index p reg : forall i v,
  Vector3.length (avoidance index p i reg v)
  <= Vector3.length v + 0.02 * INR (length reg).
Proof.
  induction reg as [| q reg IH]; intros i v.
  - cbn. lra.
  - cbn [avoidance]. eapply Rle_trans; [apply IH |].
    pose proof (avoid_length_le index p q i v).
    change (length (q :: reg)) with (S (length reg)). rewrite S_INR. lra.
Qed.

Lemma forces_length_le index three p v reg :
  Vector3.length (forces index three p v reg)
  <= 0.95 * Vector3.length v + 0.32 + 0.02 * INR (length reg).
Proof.
  unfold forces. eapply Rle_trans; [apply avoidance_length_le |].
  assert (Hd : 0 <= calculateDistance p (mousePosition three)).
  { unfold calculateDistance. rewrite distanceTo_length. apply length_nonneg. }
  pose proof (repulsion_length_le _ p (mousePosition three)
                (gravity (calculateDistance p moonCenter) p (damp v)) Hd).
  pose proof (gravity_length_le (calculateDistance p moonCenter) p (damp v)).
  pose proof (length_damp v). lra.
Qed.

Lemma surface_length_le d q w :
  Vector3.length (snd (surface d q w)) <= Vector3.length w.
Proof.
  destruct (Rlt_dec d 3.5) as [Hd | Hd].
  - rewrite surface_near by exact Hd. cbn [snd].
    rewrite length_multiplyScalar by lra. pose proof (length_nonneg w). lra.
  - rewrite surface_far by lra. cbn [snd]. lra.
Qed.

(** X7. One callback on a mounted object with a registry slot: the speed
    it stores is at most [0.95] of the speed it found plus [0.32] plus
    [0.02] for each registry entry. *)
Theorem useFrame_speed_bound three (o : FloatingObject R) reg p :
  mesh o = Some p -> (index o < length reg)%nat ->
  exists o' reg',
    useFrame three o reg = Some (o', reg')
    /\ Vector3.length (velocity o')
       <= 0.95 * Vector3.length (velocity o) + 0.32
          + 0.02 * INR (length reg).
Proof.
  intros Hm Hi. rewrite (useFrame_mounted three o reg p Hm Hi). cbv zeta.
  eexists _, _. split; [reflexivity |]. cbn [velocity].
  eapply Rle_trans; [apply surface_length_le | apply forces_length_le].
Qed.

Lemma useFrame_speed_bound_witness :
  exists o' reg',
    useFrame pointerAway outbound [Vector3.new 3 0 0] = Some (o', reg')
    /\ Vector3.length (velocity o')
       <= 0.95 * Vector3.length (velocity outbound) + 0.32 + 0.02 * INR 1.
Proof.
  apply (useFrame_speed_bound pointerAway outbound [Vector3.new 3 0 0]
           (Vector3.new 3 0 0) eq_refl).
  cbn. lia.
Defined.

Lemma speedLimit_fixed n :
  0.95 * speedLimit n + 0.32 + 0.02 * INR n = speedLimit n.
Proof. unfold speedLimit. lra. Qed.

Lemma useFrame_speedLimit three (o : FloatingObject R) reg o' reg' :
  useFrame three o reg = Some (o', reg') ->
  Vector3.length (velocity o) <= speedLimit (length reg) ->
  Vector3.length (velocity o') <= speedLimit (length reg).
Proof.
  intros E Hv. destruct (mesh o) as [p |] eqn:Hm.
  - assert (Hi : (index o < length reg)%nat).
    { destruct (useFrame_Some_inv _ _ _ _ _ E)
        as [(Hn & _) | (_ & _ & _ & Hi & _)]; [congruence | exact Hi]. }
    rewrite (useFrame_mounted three o reg p Hm Hi) in E. cbv zeta in E.
    apply (inj Some), pair_equal_spec in E. destruct E as [<- _].
    cbn [velocity]. rewrite <- (speedLimit_fixed (length reg)).
    eapply Rle_trans; [apply surface_length_le |].
    eapply Rle_trans; [apply forces_length_le |]. lra.
  - unfold useFrame in E. rewrite Hm in E.
    apply (inj Some), pair_equal_spec in E. destruct E as [<- _]. exact Hv.
Qed.

Lemma frame_speedLimit three : forall (os : list (FloatingObject R)) reg os' reg',
  frame three os reg = Some (os', reg') ->
  Forall (fun o => Vector3.length (velocity o) <= speedLimit (length reg)) os ->
  Forall (fun o => Vector3.length (velocity o) <= speedLimit (length reg)) os'.
Proof.
  induction os as [| o os IH]; intros reg os'' reg'' E Hall.
  - cbn in E. apply (inj Some), pair_equal_spec in E. destruct E as [<- _].
    constructor.
  - destruct (frame_Some_cons _ _ _ _ _ _ E)
      as (o' & reg1 & os' & Eu & Ef & ->).
    apply Forall_cons in Hall as [Ho Hos]. constructor.
    + eapply useFrame_speedLimit; eassumption.
    + pose proof (useFrame_length _ _ _ _ _ Eu) as Hlen.
      rewrite <- Hlen. eapply IH; [exact Ef |]. rewrite Hlen. exact Hos.
Qed.

Lemma step_speedLimit e (s s' : SceneState R) n :
  step e s = Some s' -> length (objectPositions s) = n ->
  Forall (fun o => Vector3.length (velocity o) <= speedLimit n) (objects s) ->
  Forall (fun o => Vector3.length (velocity o) <= speedLimit n) (objects s')
  /\ length (objectPositions s') = n.
Proof.
  intros E <- Hall. destruct e as [three | i | i]; cbn [step] in E.
  - destruct (frame three (objects s) (objectPositions s))
      as [[os' reg'] |] eqn:Ef; [| discriminate].
    apply (inj Some) in E. subst s'. cbn [objects objectPositions]. split.
    + eapply frame_speedLimit; eassumption.
    + eapply frame_length. exact Ef.
  - apply (inj Some) in E. subst s'. cbn [objects objectPositions].
    split; [| reflexivity]. apply Forall_lookup. intros j o Ho.
    rewrite Forall_lookup in Hall.
    destruct (decide (i = j)) as [-> | Hne].
    + rewrite list_lookup_alter_eq in Ho.
      destruct (objects s !! j) as [o0 |] eqn:Ho0; [| discriminate].
      apply (inj Some) in Ho. subst o. apply (Hall j o0 Ho0).
    + rewrite list_lookup_alter_ne in Ho by exact Hne. apply (Hall j o Ho).
  - apply (inj Some) in E. subst s'. cbn [objects objectPositions].
    split; [| reflexivity]. apply Forall_lookup. intros j o Ho.
    rewrite Forall_lookup in Hall.
    destruct (decide (i = j)) as [-> | Hne].
    + rewrite list_lookup_alter_eq in Ho.
      destruct (objects s !! j) as [o0 |] eqn:Ho0; [| discriminate].
      apply (inj Some) in Ho. subst o. apply (Hall j o0 Ho0).
    + rewrite list_lookup_alter_ne in Ho by exact Hne. apply (Hall j o Ho).
Qed.

Lemma run_speedLimit es : forall (s s' : SceneState R) n,
  run es s = Some s' -> length (objectPositions s) = n ->
  Forall (fun o => Vector3.length (velocity o) <= speedLimit n) (objects s) ->
  Forall (fun o => Vector3.length (velocity o) <= speedLimit n) (objects s').
Proof.
  induction es as [| e es IH]; intros s s' n E Hn Hall.
  - cbn in E. apply (inj Some) in E. subst s'. exact Hall.
  - cbn [run] in E. destruct (step e s) as [s1 |] eqn:E1; [| discriminate].
    cbn in E. destruct (step_speedLimit e s s1 n E1 Hn Hall) as [Hall1 Hn1].
    eapply IH; eassumption.
Qed.

(** X8. In a scene mounted on a registry of [n] slots no body ever moves
    faster than [6.4 + 0.4 * n] per frame, whatever the pointer does and
    however many frames pass. *)
Theorem mounted_scene_speed_limit (reg : list (Vector3 R))
    (es : list (Event R)) :
  exists s',
    run es (mkSceneState (mount reg) reg) = Some s'
    /\ Forall (fun o => Vector3.length (velocity o)
                        <= 6.4 + 0.4 * INR (length reg)) (objects s').
Proof.
  destruct (run_wellMounted es _ (wellMounted_mount reg)) as (s' & E & _).
  exists s'. split; [exact E |].
  apply (run_speedLimit es _ s' (length reg) E eq_refl).
  apply Forall_lookup. intros i o Ho. cbn [objects] in Ho.
  unfold mount in Ho. rewrite list_lookup_imap in Ho.
  destruct (reg !! i) as [p |]; [| discriminate].
  apply (inj Some) in Ho. subst o. cbn [velocity].
  replace (Vector3.length (Vector3.new (ofZ 0) (ofZ 0) (ofZ 0))) with 0
    by (symmetry; apply length_zero_iff; reflexivity).
  unfold speedLimit. pose proof (pos_INR (length reg)). lra.
Qed.

End RealBounds.

(* ================================================================== *)
(** ** The shell and the fall towards it *)

Section RealMotion.
Local Open Scope R_scope.
Implicit Types (p q v w : Vector3 R) (d c : R) (three : Three R)
  (reg : list (Vector3 R)).

Lemma length_moonCenter p :
  calculateDistance p moonCenter = Vector3.length p.
Proof. destruct p as [x y z]. unfold_vec. f_equal. lra. Qed.

(** X9. When the surface rule fires on a position [q] off the centre, it
    moves [q] along its own ray from the centre, to the distance
    [0.8 * |q| + 0.7]: the gap to the shell of radius [3.5] shrinks by a
    fifth and never changes sign, and the velocity shrinks to [0.8] of its
    length. *)
Theorem surface_closes_gap d q v :
  d < 3.5 -> q <> Vector3.new 0 0 0 ->
  let q' := fst (surface d q v) in
  q' = Vector3.multiplyScalar q (0.8 + 0.7 / Vector3.length q)
  /\ Vector3.length q' = 0.8 * Vector3.length q + 0.7
  /\ 3.5 - Vector3.length q' = 0.8 * (3.5 - Vector3.length q)
  /\ Vector3.length (snd (surface d q v)) = 0.8 * Vector3.length v.
Proof.
  intros Hd Hq q'. subst q'. rewrite surface_near by exact Hd. cbn [fst snd].
  assert (Hl : Vector3.length q <> 0).
  { intros E. apply Hq. apply length_zero_iff. exact E. }
  pose proof (length_nonneg q) as Hpos.
  assert (Hk : 0 < 0.7 / Vector3.length q)
    by (apply Rdiv_lt_0_compat; lra).
  assert (E : Vector3.lerp q
                (Vector3.multiplyScalar (Vector3.normalize q) 3.5) 0.2 =
              Vector3.multiplyScalar q (0.8 + 0.7 / Vector3.length q)).
  { rewrite normalize_nonzero by exact Hl.
    set (L := Vector3.length q) in *. destruct q as [x y z].
    cbv [Vector3.lerp Vector3.multiplyScalar Vector3.x Vector3.y Vector3.z].
    cbn [nadd nsub nmul Number_R]. unfold Rdiv. f_equal; lra. }
  rewrite E. split; [reflexivity |].
  assert (El : Vector3.length
                 (Vector3.multiplyScalar q (0.8 + 0.7 / Vector3.length q)) =
               0.8 * Vector3.length q + 0.7).
  { rewrite length_multiplyScalar by lra. field. exact Hl. }
  rewrite El. split; [reflexivity |]. split; [lra |].
  apply length_multiplyScalar. lra.
Qed.

Lemma surface_closes_gap_witness :
  let q := Vector3.new 2 0 0 in
  let q' := fst (surface 2 q (Vector3.new 0 1 0)) in
  Vector3.length q' = 0.8 * Vector3.length q + 0.7
  /\ 3.5 - Vector3.length q' = 0.8 * (3.5 - Vector3.length q).
Proof.
  intros q q'.
  destruct (surface_closes_gap 2 q (Vector3.new 0 1 0)) as (_ & Hl & Hg & _).
  - lra.
  - intros E. apply (f_equal Vector3.x) in E. cbn in E. lra.
  - split; [exact Hl | exact Hg].
Defined.

(** X10. A body at rest, at least [3.5] from the centre and under no other
    influence, ends its callback exactly [0.02] closer to the centre. *)
Theorem lone_body_falls three (o : FloatingObject R) reg p :
  mesh o = Some p -> (index o < length reg)%nat ->
  velocity o = Vector3.new 0 0 0 ->
  3.5 <= calculateDistance p moonCenter ->
  noOtherInfluence (index o) three p reg ->
  exists o' reg' p',
    useFrame three o reg = Some (o', reg')
    /\ mesh o' = Some p'
    /\ calculateDistance p' moonCenter = calculateDistance p moonCenter - 0.02.
Proof.
  intros Hm Hi Hv Hd Halone.
  rewrite (useFrame_pulled three o reg p Hm Hi Hv Hd Halone).
  eexists _, _, _. split; [reflexivity |]. split; [reflexivity |].
  rewrite !length_moonCenter. rewrite length_moonCenter in Hd.
  assert (Hl : Vector3.length (Vector3.sub moonCenter p) = Vector3.length p)
    by (rewrite length_sub_moonCenter; apply length_moonCenter).
  unfold pull. rewrite normalize_nonzero by (rewrite Hl; lra). rewrite Hl.
  replace (Vector3.add p
             (Vector3.multiplyScalar
                (Vector3.multiplyScalar (Vector3.sub moonCenter p)
                   (1 / Vector3.length p)) 0.02))
    with (Vector3.multiplyScalar p (1 - 0.02 / Vector3.length p)).
  - assert (0 < 0.02 / Vector3.length p < 1).
    { split; [apply Rdiv_lt_0_compat; lra |].
      apply (Rmult_lt_reg_r (Vector3.length p)); [lra |].
      unfold Rdiv. rewrite Rmult_assoc, Rinv_l by lra. lra. }
    rewrite length_multiplyScalar by lra. field. lra.
  - set (L := Vector3.length p). destruct p as [x y z].
    cbv [Vector3.add Vector3.sub Vector3.multiplyScalar moonCenter
         Vector3.x Vector3.y Vector3.z].
    cbn [nadd nsub nmul ofZ Number_R]. unfold Rdiv. f_equal; lra.
Qed.

Lemma lone_body_falls_witness :
  exists o' reg' p',
    useFrame pointerAway resting [Vector3.new 10 0 0] = Some (o', reg')
    /\ mesh o' = Some p'
    /\ calculateDistance p' moonCenter =
       calculateDistance (Vector3.new 10 0 0) moonCenter - 0.02.
Proof.
  apply (lone_body_falls pointerAway resting [Vector3.new 10 0 0]
           (Vector3.new 10 0 0) eq_refl).
  - cbn. lia.
  - reflexivity.
  - apply distanceTo_at_least; [lra | unfold_vec; lra].
  - apply (alone_in_registry pointerAway _ 10). reflexivity.
Defined.

End RealMotion.

(* ================================================================== *)
(** ** Where the layout puts the bodies *)

Section LayoutPlaces.
Local Open Scope R_scope.
Implicit Types (random : nat -> R) (p q : Vector3 R).

Lemma ring_square a r :
  cos a * r * (cos a * r) + sin a * r * (sin a * r) = r * r.
Proof.
  pose proof (sin2_cos2 a) as E. unfold Rsqr in E.
  replace (cos a * r * (cos a * r) + sin a * r * (sin a * r))
    with (r * r * (sin a * sin a + cos a * cos a)) by ring.
  rewrite E. ring.
Qed.

Lemma initialPositions_lookup random n p :
  initialPositions random !! n = Some p ->
  (n < 48)%nat /\ p = objectAt random (n / 16) 16 (n mod 16) (2 * n).
Proof.
  intros Hn.
  assert (Hlt : (n < 48)%nat).
  { apply lookup_lt_Some in Hn. rewrite initialPositions_length in Hn.
    exact Hn. }
  split; [exact Hlt |].
  rewrite initialPositions_closed, lookup_map_seq in Hn by exact Hlt.
  apply (inj Some) in Hn. symmetry. exact Hn.
Qed.

Lemma layer_at_most_two n : (n < 48)%nat -> 0 <= INR (n / 16) <= 2.
Proof.
  intros Hn. split; [apply pos_INR |].
  assert (Hq : (n / 16 <= 2)%nat).
  { apply Nat.lt_succ_r. apply Nat.Div0.div_lt_upper_bound. lia. }
  apply le_INR in Hq. change (INR 2) with (1 + 1) in Hq. lra.
Qed.

(** X11. With the random values in [[0, 1)] every body starts between 5
    and 9 from the centre: outside the shell, so that its first callback
    pulls it towards the moon and applies no surface correction. *)
Theorem initial_positions_outside_shell random :
  (forall k, 0 <= random k < 1) ->
  forall n p, initialPositions random !! n = Some p ->
    5 <= calculateDistance p moonCenter < 9
    /\ (forall q v, surface (calculateDistance p moonCenter) q v = (q, v))
    /\ (forall v, gravity (calculateDistance p moonCenter) p v =
                  Vector3.add v (pull p)).
Proof.
  intros Hrange n p Hn.
  destruct (initialPositions_lookup random n p Hn) as [Hlt ->].
  assert (Hd : 5 <= calculateDistance
                      (objectAt random (n / 16) 16 (n mod 16) (2 * n))
                      moonCenter < 9).
  { rewrite length_moonCenter. unfold objectAt, Vector3.length.
    cbn [Vector3.x Vector3.y Vector3.z nsqrt nadd nmul Number_R].
    set (a := INR (n mod 16) / INR 16 * PI * 2).
    set (r := 5 + random (2 * n)%nat * 2).
    set (y := (random (S (2 * n)) - 0.5) * 4 + INR (n / 16) * 1.5).
    pose proof (Hrange (2 * n)%nat) as Hr.
    pose proof (Hrange (S (2 * n))) as Hy.
    pose proof (layer_at_most_two n Hlt) as Hlayer.
    replace (cos a * r * (cos a * r) + y * y + sin a * r * (sin a * r))
      with (r * r + y * y)
      by (rewrite <- (ring_square a r); ring).
    assert (Hr5 : 5 <= r < 7) by (unfold r; lra).
    assert (Hy5 : -2 <= y < 5) by (unfold y; lra).
    split.
    - rewrite <- (sqrt_square 5) by lra. apply sqrt_le_1_alt. nra.
    - rewrite <- (sqrt_square 9) by lra. apply sqrt_lt_1_alt. nra. }
  split; [exact Hd |]. split.
  - intros q v. apply surface_far. lra.
  - intros v. rewrite gravity_outside by lra. reflexivity.
Qed.

Lemma initial_positions_outside_shell_witness :
  let p := objectAt (fun _ => 0.5) 1 16 1 34 in
  5 <= calculateDistance p moonCenter < 9.
Proof.
  intros p.
  apply (initial_positions_outside_shell (fun _ => 0.5)
           ltac:(intros k; lra) 17%nat p).
  rewrite initialPositions_closed. reflexivity.
Defined.

Lemma angles_differ (i j : nat) :
  (i < j < 16)%nat ->
  let a := INR i / INR 16 * PI * 2 in
  let b := INR j / INR 16 * PI * 2 in
  ~ (cos a = cos b /\ sin a = sin b).
Proof.
  intros [Hij Hj] a b [Hc Hs].
  assert (H16 : INR 16 = 16) by (simpl; lra).
  pose proof PI_RGT_0 as Hpi.
  assert (Hi0 : 0 <= INR i) by apply pos_INR.
  assert (Hij' : INR i < INR j) by (apply lt_INR; exact Hij).
  assert (Hj' : INR j < 16) by (rewrite <- H16; apply lt_INR; exact Hj).
  assert (Hdelta : 0 < b - a < 2 * PI).
  { unfold a, b. rewrite H16. split; nra. }
  assert (Hcos : cos (b - a) = 1).
  { rewrite cos_minus, <- Hc, <- Hs.
    pose proof (sin2_cos2 a) as E. unfold Rsqr in E. lra. }
  assert (Hsin : sin (b - a) = 0).
  { rewrite sin_minus, <- Hc, <- Hs. ring. }
  destruct (sin_eq_O_2PI_0 (b - a)) as [E | [E | E]]; try lra.
  rewrite E, cos_PI in Hcos. lra.
Qed.

(** X12. With the random values in [[0, 1)] no two bodies of one layer
    start at the same point. *)
Theorem initial_positions_distinct_in_layer random :
  (forall k, 0 <= random k < 1) ->
  forall n m p q,
    n <> m -> (n / 16 = m / 16)%nat ->
    initialPositions random !! n = Some p ->
    initialPositions random !! m = Some q ->
    p <> q.
Proof.
  intros Hrange n m p q Hnm Hlayer Hn Hm Epq.
  destruct (initialPositions_lookup random n p Hn) as [Hn48 ->].
  destruct (initialPositions_lookup random m q Hm) as [Hm48 ->].
  assert (Hmod : (n mod 16 <> m mod 16)%nat).
  { intros E. apply Hnm.
    rewrite (Nat.div_mod_eq n 16), (Nat.div_mod_eq m 16), Hlayer, E.
    reflexivity. }
  assert (Hn16 : (n mod 16 < 16)%nat) by (apply Nat.mod_upper_bound; lia).
  assert (Hm16 : (m mod 16 < 16)%nat) by (apply Nat.mod_upper_bound; lia).
  unfold objectAt in Epq.
  set (a := INR (n mod 16) / INR 16 * PI * 2) in *.
  set (b := INR (m mod 16) / INR 16 * PI * 2) in *.
  set (r := 5 + random (2 * n)%nat * 2) in *.
  set (t := 5 + random (2 * m)%nat * 2) in *.
  pose proof (Hrange (2 * n)%nat) as Hr. pose proof (Hrange (2 * m)%nat) as Ht.
  assert (Ex : cos a * r = cos b * t)
    by (apply (f_equal Vector3.x) in Epq; exact Epq).
  assert (Ez : sin a * r = sin b * t)
    by (apply (f_equal Vector3.z) in Epq; exact Epq).
  assert (Ert : r = t).
  { pose proof (ring_square a r) as Ea. pose proof (ring_square b t) as Eb.
    rewrite Ex, Ez, Eb in Ea.
    assert (0 < r) by (unfold r; lra). assert (0 < t) by (unfold t; lra).
    nra. }
  assert (Hr0 : r <> 0) by (unfold r; lra).
  assert (Ec : cos a = cos b).
  { rewrite <- Ert in Ex. apply (Rmult_eq_reg_r r); assumption. }
  assert (Es : sin a = sin b).
  { rewrite <- Ert in Ez. apply (Rmult_eq_reg_r r); assumption. }
  destruct (Nat.lt_total (n mod 16) (m mod 16)) as [Hlt | [Heq | Hgt]].
  - apply (angles_differ (n mod 16) (m mod 16) ltac:(lia)). split; assumption.
  - contradiction.
  - apply (angles_differ (m mod 16) (n mod 16) ltac:(lia)).
    split; symmetry; assumption.
Qed.

Lemma initial_positions_distinct_in_layer_witness :
  objectAt (fun _ => 0.5) 1 16 1 34 <> objectAt (fun _ => 0.5) 1 16 2 36.
Proof.
  apply (initial_positions_distinct_in_layer (fun _ => 0.5)
           ltac:(intros k; lra) 17%nat 18%nat).
  - lia.
  - reflexivity.
  - rewrite initialPositions_closed. reflexivity.
  - rewrite initialPositions_closed. reflexivity.
Defined.

(** X13. Nothing keeps bodies of different layers apart: there are random
    values in [[0, 1)] for which the first body of layer 0 and the first
    body of layer 1 start at the same point. *)
Theorem initial_positions_can_collide :
  exists random p,
    (forall k, 0 <= random k < 1)
    /\ initialPositions random !! 0%nat = Some p
    /\ initialPositions random !! 16%nat = Some p.
Proof.
  exists (fun k => if (k =? 1)%nat then 0.875 else 0.5).
  eexists. split; [| split].
  - intros k. destruct (k =? 1)%nat; lra.
  - rewrite initialPositions_closed. reflexivity.
  - rewrite initialPositions_closed, lookup_map_seq by lia.
    f_equal. unfold objectAt.
    change (16 / 16)%nat with 1%nat. change (16 mod 16)%nat with 0%nat.
    change (0 / 16)%nat with 0%nat. change (0 mod 16)%nat with 0%nat.
    cbn [Nat.mul Nat.add Nat.eqb]. f_equal; simpl INR; lra.
Qed.

End LayoutPlaces.

(* ================================================================== *)
(** ** Geometry types, the moon, and two runs in binary64 *)

Section Types.
Context {T : Type} `{Number T}.

Lemma types_mount (reg : list (Vector3 T)) :
  map type (mount reg) = map typeOf (seq 0 (length reg)).
Proof.
  unfold mount. change (map type ?l) with (type <$> l).
  rewrite fmap_imap. unfold compose. cbn [type].
  apply (imap_seq_0 reg typeOf).
Qed.

Lemma typeOf_period k :
  typeOf (3 * k) = box /\ typeOf (3 * k + 1) = sphere
  /\ typeOf (3 * k + 2) = disk.
Proof.
  unfold typeOf.
  replace ((3 * k) mod 3)%nat with 0%nat
    by (symmetry; rewrite Nat.mul_comm; apply Nat.Div0.mod_mul).
  replace ((3 * k + 1) mod 3)%nat with 1%nat
    by (rewrite (Nat.add_comm (3 * k) 1), (Nat.mul_comm 3 k),
          Nat.Div0.mod_add; reflexivity).
  replace ((3 * k + 2) mod 3)%nat with 2%nat
    by (rewrite (Nat.add_comm (3 * k) 2), (Nat.mul_comm 3 k),
          Nat.Div0.mod_add; reflexivity).
  repeat split.
Qed.

Lemma count_typeOf k t :
  count_occ ObjectType_eq_dec (map typeOf (seq 0 (3 * k))) t = k.
Proof.
  induction k as [| k IH]; [reflexivity |].
  replace (3 * S k)%nat with (3 * k + 3)%nat by lia.
  rewrite seq_app, map_app, count_occ_app, IH. cbn [seq map Nat.add].
  destruct (typeOf_period k) as (Hb & Hs & Hd).
  replace (S (3 * k)) with (3 * k + 1)%nat by lia.
  replace (S (3 * k + 1)) with (3 * k + 2)%nat by lia.
  rewrite Hb, Hs, Hd. destruct t; cbn; lia.
Qed.

(** X14. The geometry types go round-robin by index: a registry of [3 * k]
    positions mounts exactly [k] boxes, [k] spheres and [k] disks. *)
Theorem mount_types_balanced (reg : list (Vector3 T)) k :
  length reg = (3 * k)%nat ->
  countType box (mount reg) = k
  /\ countType sphere (mount reg) = k
  /\ countType disk (mount reg) = k.
Proof.
  intros Hlen. unfold countType. rewrite types_mount, Hlen.
  repeat split; apply count_typeOf.
Qed.

End Types.

Section ScenesRun.
Local Open Scope R_scope.

(** The 48 bodies of the scene: 16 of each geometry type. *)
Lemma mount_types_balanced_witness :
  let os := mount (initialPositions (fun _ => 0.5)) in
  countType box os = 16%nat /\ countType sphere os = 16%nat
  /\ countType disk os = 16%nat.
Proof.
  intros os.
  apply (mount_types_balanced (initialPositions (fun _ => 0.5)) 16).
  apply initialPositions_length.
Defined.

(** X15. The moon turns by [0.0005] per frame: after [n] frames its
    rotation is the first one plus [0.0005 * n], and it stays unset while
    the ref is [null]. *)
Theorem Moon_rotation (n : nat) (y : R) :
  Nat.iter n Moon_useFrame (Some y) = Some (y + 0.0005 * INR n)
  /\ Nat.iter n (@Moon_useFrame R _) None = None.
Proof.
  induction n as [| n [IHs IHn]].
  - split; [| reflexivity]. cbn [Nat.iter nat_rect]. f_equal. simpl. lra.
  - rewrite !Nat.iter_succ, IHs, IHn. split; [| reflexivity].
    cbn [Moon_useFrame fmap option_fmap option_map]. f_equal.
    rewrite S_INR. unfold_num. lra.
Qed.

(** [leader] and [follower] on a registry with a third slot that belongs to
    neither: the pass leaves the slot and the length alone. *)
Lemma frame_writes_own_slots_witness :
  let p0 : Vector3 PrimFloat.float := Vector3.new (ofZ 5) (ofZ 0) (ofZ 0) in
  let p1 : Vector3 PrimFloat.float := Vector3.new (dec 557 100) (ofZ 0) (ofZ 0) in
  let p2 : Vector3 PrimFloat.float := Vector3.new (ofZ 0) (ofZ 8) (ofZ 0) in
  frame pointerFar [leader; follower] [p0; p1; p2]
    ≫= (fun r => Some (length r.2, r.2 !! 2%nat)) = Some (3%nat, Some p2).
Proof.
  intros p0 p1 p2.
  destruct (frame pointerFar [leader; follower] [p0; p1; p2])
    as [[os' reg'] |] eqn:E; [| vm_compute in E; discriminate E].
  destruct (frame_writes_own_slots _ _ _ _ _ E) as [Hlen Hslot].
  cbn [mbind option_bind snd]. rewrite Hlen, Hslot; [reflexivity |].
  repeat constructor; cbn; intros _; lia.
Defined.

Lemma frame_keeps_props_witness :
  let p0 : Vector3 PrimFloat.float := Vector3.new (ofZ 5) (ofZ 0) (ofZ 0) in
  let p1 : Vector3 PrimFloat.float := Vector3.new (dec 557 100) (ofZ 0) (ofZ 0) in
  frame pointerFar [leader; setIsHovered true follower] [p0; p1]
    ≫= (fun r => Some (map index r.1, map type r.1, map isHovered r.1))
  = Some ([0%nat; 1%nat], [box; sphere], [false; true]).
Proof.
  intros p0 p1.
  destruct (frame pointerFar [leader; setIsHovered true follower] [p0; p1])
    as [[os' reg'] |] eqn:E; [| vm_compute in E; discriminate E].
  destruct (frame_keeps_props _ _ _ _ _ E) as (Hi & Ht & Hh & _).
  cbn [mbind option_bind fst]. rewrite Hi, Ht, Hh. reflexivity.
Defined.

End ScenesRun.

(* ================================================================== *)
(** ** The same definitions run in binary64 *)

Section Binary64.
Import PrimFloat.
Local Open Scope float_scope.
#[local] Set Warnings "-inexact-float".
Let F := PrimFloat.float.

(** The decimal constants are the literals the engine reads. *)
Example constants_binary64 :
  (@GRAVITY_STRENGTH F _, @REPULSION_STRENGTH F _, @DAMPING F _,
   @OBJECT_SPACING F _, @MOON_RADIUS F _, @MOUSE_INFLUENCE_RADIUS F _)
  = (0.02, 0.3, 0.95, 0.6, 3, 4).
Proof. vm_compute. reflexivity. Qed.

(** The three bodies of the end-to-end scenario: one frame in binary64 gives
    each the position [old + normalize(center - old) * 0.02], computed in
    binary64. *)
Example three_bodies_binary64 :
  let reg : list (Vector3 F) :=
    [Vector3.new 10 0 0; Vector3.new 0 10 0; Vector3.new 0 0 10] in
  let pulled p :=
    Vector3.add p
      (Vector3.multiplyScalar (Vector3.normalize (Vector3.sub moonCenter p))
         GRAVITY_STRENGTH) in
  snd <$> frame pointerFar (mount reg) reg = Some (map pulled reg).
Proof. vm_compute. reflexivity. Qed.

(** The body that crosses the shell inwards, in binary64: the callback and
    the rule read on the integrated position part ways there too. *)
Example inbound_binary64 :
  let o : FloatingObject F :=
    mkFloatingObject 0 box (Some (Vector3.new 3.5 0 0))
      (Vector3.new (-1) 0 0) false in
  useFrame pointerFar o [Vector3.new 3.5 0 0] <>
  useFrame_as_specified pointerFar o [Vector3.new 3.5 0 0].
Proof. vm_compute. intros E. discriminate E. Qed.

End Binary64.
